(** * RentAlert backend: the background reminder-dispatch job

    A shallow embedding of the in-memory job registry and of the dispatch
    loop of the reminder-job service ([createReminderJob],
    [updateJobProgress], [getJobStatus], [cleanupOldJobs],
    [processRemindersInBackground]), of the handlers [sendReminders],
    [getJobStatus] and [getJobDetails] of the reminder controller, of
    [EventLog.logEvent] and of [sendBulkSMS] of the SMS service.

    The registry is the JavaScript [Map] named [jobs]; it is a [gmap] from
    job ids to job records.  The asynchronous functions are written in a
    small state-and-exception monad: the state holds the registry, the local
    variable [totalCost], the sequence of calls made to the external
    collaborators and every state the registry went through.  What the
    collaborators answer (a value, or a raised error) is given by an
    environment, so every theorem ranges over all their behaviours.  The
    process is single-threaded: the registry changes under a running function
    only while that function is suspended at an [await]. *)

From stdpp Require Import gmap strings list pretty.
From Stdlib Require Import ZArith Lia SpecFloat.

(** ** Data model *)

(** [status] of a job: ['processing'], ['completed'], ['failed']. *)
Inductive JobStatus := Processing | Completed | Failed.

(** [status] of a per-tenant result: ['sent'] or ['failed']. *)
Inductive DeliveryStatus := StatusSent | StatusFailed.

Module Detail.
(** One element of [job.details]. *)
Record t := mk {
  tenantId : string;
  tenantName : string;
  status : DeliveryStatus;
  cost : Z;
  error : option string
}.
End Detail.

Module Job.
(** The object stored in the [jobs] map.  [createReminderJob] writes no
    [error] key: an absent key and [null] are both [None]. *)
Record t := mk {
  id : string;
  status : JobStatus;
  total : Z;
  sent : Z;
  failed : Z;
  details : list Detail.t;
  totalCost : Z;
  startedAt : Z;
  completedAt : option Z;
  error : option string
}.
End Job.

Module Update.
(** The second argument of [updateJobProgress]: the keys that are present
    are [Some]. *)
Record t := mk {
  status : option JobStatus;
  error : option string;
  completedAt : option Z;
  total : option Z;
  sent : option Z;
  failed : option Z;
  details : option (list Detail.t);
  totalCost : option Z
}.
End Update.

Module Property.
Record t := mk { name : string }.
End Property.

Module Tenant.
(** A tenant document; [propertyId] is the populated reference, [null]
    when the property document is gone. *)
Record t := mk {
  _id : string;
  userId : string;
  propertyId : option Property.t;
  name : string;
  phone : string;
  email : option string;
  unitNumber : string;
  rentAmount : Z;
  dueDate : Z;
  lastReminderSentAt : option Z;
  deletedAt : option Z
}.
End Tenant.

Module User.
Record t := mk { _id : string; name : string; phone : string }.
End User.

Module SendResult.
(** The uniform outcome of a channel sender; the loop reads [success],
    [cost] and [error] only. *)
Record t := mk { success : bool; cost : option Z; error : option string }.
End SendResult.

Module FeatureFlag.
Record t := mk { enabled : bool; disabledMessage : option string }.
End FeatureFlag.

Module ReminderLogDoc.
Record t := mk {
  userId : string;
  tenantId : string;
  type : string;
  status : DeliveryStatus;
  cost : Z;
  errorMessage : option string
}.
End ReminderLogDoc.

(** A call either returns or raises an error carrying [error.message]. *)
Inductive Outcome (A : Type) := Returns (a : A) | Raises (message : string).
Arguments Returns {A} a.
Arguments Raises {A} message.

(** The calls made to the outside, in the order they are made. *)
Inductive Event :=
| EvUserFindById (userId : string)
| EvTenantFind (tenantIds : list string) (userId : string)
| EvSendSMS (to message : string)
| EvSendEmail (to : option string) (subject html : string)
| EvReminderLogCreate (doc : ReminderLogDoc.t)
| EvTenantSave (tenantId : string) (lastReminderSentAt : Z)
| EvEventLogCreate (userId eventType method : string)
    (sent failed totalCost : Z)
| EvFeatureFlagFindOne (key : string)
| EvDelay (ms : Z).

(** ** JavaScript coercions used by the code *)

(** Truthiness of a string-or-null value: [null] and [''] are falsy. *)
Definition truthy (o : option string) : bool :=
  match o with
  | Some s => negb (String.eqb s EmptyString)
  | None => false
  end.

(** [result.error || null] *)
Definition or_null (o : option string) : option string :=
  if truthy o then o else None.

(** [result.cost || 0] *)
Definition or_zero (o : option Z) : Z := default 0%Z o.

(** ** The job registry *)

(** [createReminderJob]: [jobs.set] of a fresh record, whatever the map holds
    under [jobId]; returns the map and [jobs.get(jobId)]. *)
Definition createReminderJob (jobs : gmap string Job.t) (now : Z)
    (jobId : string) (totalCount : Z) : gmap string Job.t * Job.t :=
  let job := Job.mk jobId Processing totalCount 0 0 [] 0 now None None in
  (<[jobId := job]> jobs, job).

(** [Object.assign(job, update)] *)
Definition assign (job : Job.t) (update : Update.t) : Job.t :=
  Job.mk (Job.id job)
    (default (Job.status job) (Update.status update))
    (default (Job.total job) (Update.total update))
    (default (Job.sent job) (Update.sent update))
    (default (Job.failed job) (Update.failed update))
    (default (Job.details job) (Update.details update))
    (default (Job.totalCost job) (Update.totalCost update))
    (Job.startedAt job)
    (match Update.completedAt update with
     | Some d => Some d
     | None => Job.completedAt job
     end)
    (match Update.error update with
     | Some e => Some e
     | None => Job.error job
     end).

Definition updateJobProgress (jobs : gmap string Job.t) (jobId : string)
    (update : Update.t) : gmap string Job.t :=
  match jobs !! jobId with
  | Some job => <[jobId := assign job update]> jobs
  | None => jobs
  end.

(** [jobs.get(jobId) || null] *)
Definition getJobStatus (jobs : gmap string Job.t) (jobId : string)
    : option Job.t :=
  jobs !! jobId.

(** [job.completedAt && job.completedAt < oneHourAgo] *)
Definition expired (now : Z) (job : Job.t) : bool :=
  match Job.completedAt job with
  | Some d => (d <? now - 60 * 60 * 1000)%Z
  | None => false
  end.

Definition cleanupOldJobs (now : Z) (jobs : gmap string Job.t)
    : gmap string Job.t :=
  filter (λ kv, expired now kv.2 = false) jobs.

(** ** The environment of one run *)

Module SmsTemplateData.
Record t := mk {
  tenantName : string; month : string; rentAmount : Z; dueDate : Z;
  landlordName : string
}.
End SmsTemplateData.

Module EmailTemplateData.
Record t := mk {
  tenantName : string; month : string; rentAmount : Z; dueDate : Z;
  unitNumber : string; landlordName : string; landlordPhone : string
}.
End EmailTemplateData.

(** The collaborators.  Every call returns or raises; a call that never
    settles is outside this model.  A call made for the tenant at position
    [i] of the loop receives [i], so two calls with equal arguments may
    answer differently; [e_ReminderLog_create] also receives whether it is
    the call of the [catch] block.  The channel senders may raise: the
    repository's own [sendSMS] and [sendEmail] catch their errors and answer
    with [success = false], which is one of the behaviours covered.
    [e_Tenant_collection] is the tenant collection as the store reads it at
    the time of the query.  [e_others] is what the rest of the process does
    to the registry while the function is suspended at its [k]-th [await];
    [e_clock] is what [new Date()] reads then.  The two template renderers
    and [getCurrentMonth] format with the runtime's [Intl] and [Date] tables
    and are taken as given, as is the token drawn by [uuidv4]. *)
Record Env := {
  e_clock : nat → Z;
  e_others : nat → gmap string Job.t → gmap string Job.t;
  e_User_findById : string → Outcome (option User.t);
  e_Tenant_collection : Outcome (list Tenant.t);
  e_renderSMSTemplate : SmsTemplateData.t → string;
  e_renderEmailTemplate : EmailTemplateData.t → string;
  e_sendSMS : nat → string → string → Outcome SendResult.t;
  e_sendEmail :
    nat → option string → string → string → Outcome SendResult.t;
  e_ReminderLog_create : nat → bool → ReminderLogDoc.t → Outcome unit;
  e_tenant_save : nat → Tenant.t → Outcome unit;
  e_EventLog_create : Outcome unit;
  e_FeatureFlag_findOne : string → Outcome (option FeatureFlag.t);
  e_uuidv4 : string;
  e_getCurrentMonth : string
}.

(** ** The monad of the asynchronous code *)

(** [w_events] and [w_snaps] record what happened: the calls made, and the
    registry after each of its changes (the first element is the registry
    the function starts on). *)
Record World := {
  w_jobs : gmap string Job.t;
  w_totalCost : Z;
  w_events : list Event;
  w_snaps : list (gmap string Job.t)
}.

Definition M (A : Type) : Type := World → World * Outcome A.

Definition ret {A} (a : A) : M A := λ w, (w, Returns a).

Definition bind {A B} (m : M A) (k : A → M B) : M B := λ w,
  match m w with
  | (w', Returns a) => k a w'
  | (w', Raises e) => (w', Raises e)
  end.

Global Instance M_ret : MRet M := λ A, ret.
Global Instance M_bind : MBind M := λ A B k m, bind m k.

Definition throw {A} (message : string) : M A := λ w, (w, Raises message).

(** [try { m } catch (error) { h error }] *)
Definition try_catch {A} (m : M A) (h : string → M A) : M A := λ w,
  match m w with
  | (w', Returns a) => (w', Returns a)
  | (w', Raises e) => h e w'
  end.

Definition initial_world (jobs : gmap string Job.t) : World :=
  {| w_jobs := jobs; w_totalCost := 0; w_events := []; w_snaps := [jobs] |}.

(** ** The dispatch loop *)

Section Dispatch.

Variable env : Env.

(** The world after a suspension at the call [ev]: the rest of the process
    has run on the registry. *)
Definition tick (ev : Event) (w : World) : World :=
  let jobs' := e_others env (length (w_events w)) (w_jobs w) in
  {| w_jobs := jobs'; w_totalCost := w_totalCost w;
     w_events := w_events w ++ [ev]; w_snaps := w_snaps w ++ [jobs'] |}.

(** [await] of an external call: the function is suspended, then the
    call's outcome comes back. *)
Definition await {A} (ev : Event) (o : Outcome A) : M A := λ w,
  (tick ev w, o).

(** [new Date()] *)
Definition newDate : M Z := λ w,
  (w, Returns (e_clock env (length (w_events w)))).

(** [jobs.get(jobId)] *)
Definition jobs_get (jobId : string) : M (option Job.t) := λ w,
  (w, Returns (w_jobs w !! jobId)).

(** A property read on the value of [jobs.get(jobId)]: a [TypeError] when
    the job is not in the map. *)
Definition read_job (prop : string) (job : option Job.t) : M Job.t :=
  match job with
  | Some j => mret j
  | None =>
      throw ("Cannot read properties of undefined (reading '" +:+ prop
             +:+ "')")
  end.

(** The world after [updateJobProgress(jobId, u)]. *)
Definition put (jobId : string) (u : Update.t) (w : World) : World :=
  let jobs' := updateJobProgress (w_jobs w) jobId u in
  {| w_jobs := jobs'; w_totalCost := w_totalCost w;
     w_events := w_events w; w_snaps := w_snaps w ++ [jobs'] |}.

Definition update (jobId : string) (u : Update.t) : M unit := λ w,
  (put jobId u w, Returns tt).

(** The local variable [totalCost]. *)
Definition get_totalCost : M Z := λ w, (w, Returns (w_totalCost w)).

Definition with_totalCost (c : Z) (w : World) : World :=
  {| w_jobs := w_jobs w; w_totalCost := c;
     w_events := w_events w; w_snaps := w_snaps w |}.

Definition set_totalCost (c : Z) : M unit := λ w,
  (with_totalCost c w, Returns tt).

(** [User.findById(userId)] *)
Definition User_findById (userId : string) : M (option User.t) :=
  await (EvUserFindById userId) (e_User_findById env userId).

(** The filter of [Tenant.find]:
    [{ _id: { $in: tenantIds }, userId, deletedAt: null }]. *)
Definition matches (tenantIds : list string) (userId : string)
    (t : Tenant.t) : bool :=
  bool_decide (Tenant._id t ∈ tenantIds)
  && String.eqb (Tenant.userId t) userId
  && bool_decide (Tenant.deletedAt t = None).

Definition Tenant_find (tenantIds : list string) (userId : string)
    : M (list Tenant.t) :=
  await (EvTenantFind tenantIds userId)
    (match e_Tenant_collection env with
     | Returns docs => Returns (List.filter (matches tenantIds userId) docs)
     | Raises e => Raises e
     end).

(** [EventLog.logEvent]: the write is wrapped in its own [try]/[catch]. *)
Definition EventLog_logEvent (userId eventType method : string)
    (sent failed totalCost : Z) : M unit :=
  try_catch
    (await (EvEventLogCreate userId eventType method sent failed totalCost)
       (e_EventLog_create env))
    (λ _, mret tt).

Variables (jobId userId : string) (tenantIds : list string)
  (method targetMonth : string).

(** The body of the inner [try], for the tenant at position [i]. *)
Definition process_tenant (user : User.t) (i : nat) (tenant : Tenant.t)
    : M unit :=
  result ←
    (if String.eqb method "sms" then
       let message := e_renderSMSTemplate env
         (SmsTemplateData.mk (Tenant.name tenant) targetMonth
            (Tenant.rentAmount tenant) (Tenant.dueDate tenant)
            (User.name user)) in
       await (EvSendSMS (Tenant.phone tenant) message)
         (e_sendSMS env i (Tenant.phone tenant) message)
     else
       let html := e_renderEmailTemplate env
         (EmailTemplateData.mk (Tenant.name tenant) targetMonth
            (Tenant.rentAmount tenant) (Tenant.dueDate tenant)
            (Tenant.unitNumber tenant) (User.name user) (User.phone user)) in
       property ←
         match Tenant.propertyId tenant with
         | Some p => mret p
         | None => throw "Cannot read properties of null (reading 'name')"
         end;
       let to := Tenant.email tenant in
       let subject := "Rent Reminder - " +:+ Property.name property in
       await (EvSendEmail to subject html)
         (e_sendEmail env i to subject html));
  let status :=
    if SendResult.success result then StatusSent else StatusFailed in
  let doc := ReminderLogDoc.mk userId (Tenant._id tenant) method status
    (or_zero (SendResult.cost result)) (or_null (SendResult.error result)) in
  await (EvReminderLogCreate doc) (e_ReminderLog_create env i false doc);;
  (if SendResult.success result then
     now ← newDate;
     await (EvTenantSave (Tenant._id tenant) now) (e_tenant_save env i tenant)
   else mret tt);;
  totalCost ← get_totalCost;
  set_totalCost (totalCost + or_zero (SendResult.cost result))%Z;;
  totalCost ← get_totalCost;
  job ← jobs_get jobId;
  let detail := Detail.mk (Tenant._id tenant) (Tenant.name tenant) status
    (or_zero (SendResult.cost result)) (or_null (SendResult.error result)) in
  job ← read_job "sent" job;
  update jobId
    (Update.mk None None None None
       (Some (if SendResult.success result
              then (Job.sent job + 1)%Z else Job.sent job))
       (Some (if SendResult.success result
              then Job.failed job else (Job.failed job + 1)%Z))
       (Some (Job.details job ++ [detail]))
       (Some totalCost)).

(** The inner [catch (error)] block. *)
Definition recover (i : nat) (tenant : Tenant.t) (message : string)
    : M unit :=
  let doc := ReminderLogDoc.mk userId (Tenant._id tenant) method StatusFailed
    0 (Some message) in
  await (EvReminderLogCreate doc) (e_ReminderLog_create env i true doc);;
  job ← jobs_get jobId;
  job ← read_job "failed" job;
  update jobId
    (Update.mk None None None None None
       (Some (Job.failed job + 1)%Z)
       (Some (Job.details job ++
          [Detail.mk (Tenant._id tenant) (Tenant.name tenant) StatusFailed 0
             (Some message)]))
       None).

(** [for (let i = 0; i < eligibleTenants.length; i++)], from position [i]
    on. *)
Fixpoint for_each_tenant (user : User.t) (i : nat)
    (eligibleTenants : list Tenant.t) : M unit :=
  match eligibleTenants with
  | [] => mret tt
  | tenant :: rest =>
      try_catch (process_tenant user i tenant) (recover i tenant);;
      for_each_tenant user (S i) rest
  end.

Definition fail_job (message : string) : M unit :=
  now ← newDate;
  update jobId
    (Update.mk (Some Failed) (Some message) (Some now) None None None None
       None).

Definition processRemindersInBackground : M unit :=
  try_catch
    (user ← User_findById userId;
     match user with
     | None => fail_job "User not found"
     | Some user =>
         tenants ← Tenant_find tenantIds userId;
         if bool_decide (tenants = []) then fail_job "No valid tenants found"
         else
           let eligibleTenants :=
             if String.eqb method "email"
             then List.filter (λ t, truthy (Tenant.email t)) tenants
             else tenants in
           update jobId
             (Update.mk None None None
                (Some (Z.of_nat (length eligibleTenants))) None None None
                None);;
           set_totalCost 0;;
           for_each_tenant user 0 eligibleTenants;;
           job ← jobs_get jobId;
           job ← read_job "sent" job;
           totalCost ← get_totalCost;
           EventLog_logEvent userId "REMINDERS_SENT" method (Job.sent job)
             (Job.failed job) totalCost;;
           now ← newDate;
           update jobId
             (Update.mk (Some Completed) None (Some now) None None None None
                (Some totalCost))
     end)
    fail_job.

End Dispatch.

(** ** Numbers of the progress percentage *)

(** [Math.round(((job.sent + job.failed) / job.total) * 100)] is computed on
    IEEE 754 doubles: [SpecFloat] at precision 53. *)
Module Number.

Definition prec : Z := 53.
Definition emax : Z := 1024.

Definition of_Z (z : Z) : spec_float := binary_normalize prec emax z 0 false.
Definition div : spec_float → spec_float → spec_float := SFdiv prec emax.
Definition mul : spec_float → spec_float → spec_float := SFmul prec emax.

(** [Math.round]: the integer nearest to the argument, a tie going up, that
    is [floor (x + 1/2)] computed exactly.  [NaN] and the infinities, which
    [JSON.stringify] writes as [null], are [None]. *)
Definition round (x : spec_float) : option Z :=
  match x with
  | S754_zero _ => Some 0%Z
  | S754_finite s m e =>
      let n := if s then Z.neg m else Z.pos m in
      Some (if (0 <=? e)%Z then (n * 2 ^ e)%Z
            else ((2 * n + 2 ^ (- e)) `div` 2 ^ (- e + 1))%Z)
  | S754_infinity _ | S754_nan => None
  end.

End Number.

(** [job.total > 0
      ? Math.round(((job.sent + job.failed) / job.total) * 100) : 0] *)
Definition progress (job : Job.t) : option Z :=
  if (0 <? Job.total job)%Z then
    Number.round
      (Number.mul
         (Number.div (Number.of_Z (Job.sent job + Job.failed job))
            (Number.of_Z (Job.total job)))
         (Number.of_Z 100))
  else Some 0%Z.

(** ** The request handlers of the reminder controller *)

Module ReqUser.
(** [req.user], as the [authenticate] middleware attaches it. *)
Record t := mk {
  userId : string; email : string; name : string; phone : string;
  role : string
}.
End ReqUser.

Module Request.
(** A request that passed [authenticate]: [req.user], [req.params.jobId]
    and the body of a send request ([tenantIds] is [None] when it is missing
    or not an array). *)
Record t := mk {
  user : ReqUser.t;
  jobId : string;
  tenantIds : option (list string);
  method : option string;
  month : option string
}.
End Request.

Module JobView.
(** The [job] object of a status or details response; [details] is present
    in the details response only. *)
Record t := mk {
  id : string;
  status : JobStatus;
  total : Z;
  sent : Z;
  failed : Z;
  totalCost : Z;
  details : option (list Detail.t);
  startedAt : Z;
  completedAt : option Z;
  progress : option Z
}.
End JobView.

Inductive Body :=
| BodyError (error : string)
| BodyJob (job : JobView.t)
| BodyUnavailable (error message method : string) (enabled : bool)
    (suggestion : option string)
| BodyAccepted (message jobId : string) (total : Z) (method : string).

(** [res.status(code).json(body)] *)
Record Response := { code : Z; body : Body }.

(** The controller imports the registry's [getJobStatus] under this name. *)
Definition getJobStatusFromService := getJobStatus.

Module ReminderController.

(** The two query handlers; [job.totalCost || 0] is [job.totalCost] on a
    number. *)
Definition getJobStatus (jobs : gmap string Job.t) (req : Request.t)
    : Response :=
  match getJobStatusFromService jobs (Request.jobId req) with
  | None => {| code := 404; body := BodyError "Job not found" |}
  | Some job =>
      {| code := 200;
         body := BodyJob
           (JobView.mk (Job.id job) (Job.status job) (Job.total job)
              (Job.sent job) (Job.failed job) (Job.totalCost job) None
              (Job.startedAt job) (Job.completedAt job) (progress job)) |}
  end.

Definition getJobDetails (jobs : gmap string Job.t) (req : Request.t)
    : Response :=
  match getJobStatusFromService jobs (Request.jobId req) with
  | None => {| code := 404; body := BodyError "Job not found" |}
  | Some job =>
      {| code := 200;
         body := BodyJob
           (JobView.mk (Job.id job) (Job.status job) (Job.total job)
              (Job.sent job) (Job.failed job) (Job.totalCost job)
              (Some (Job.details job))
              (Job.startedAt job) (Job.completedAt job) (progress job)) |}
  end.

(** [method.toUpperCase()] on ASCII letters. *)
Fixpoint toUpperCase (s : string) : string :=
  match s with
  | EmptyString => EmptyString
  | String c rest =>
      let n := Ascii.nat_of_ascii c in
      String (if (97 <=? n)%nat && (n <=? 122)%nat
              then Ascii.ascii_of_nat (n - 32) else c)
        (toUpperCase rest)
  end.

(** The double-quote character of the validation message. *)
Definition dq : string := String (Ascii.ascii_of_nat 34) EmptyString.

Definition invalid_method : string :=
  "Method must be either " +:+ dq +:+ "sms" +:+ dq +:+ " or " +:+ dq
  +:+ "email" +:+ dq.

(** The work handed to the background by an accepted request: the
    arguments of the call of [processRemindersInBackground] that is started
    and not awaited. *)
Record Background := {
  bg_jobId : string;
  bg_userId : string;
  bg_tenantIds : list string;
  bg_method : string;
  bg_targetMonth : string
}.

Section SendReminders.

Variable env : Env.

(** [FeatureFlag.isEnabled(key)] *)
Definition FeatureFlag_isEnabled (key : string) : M bool :=
  feature ← await env (EvFeatureFlagFindOne key)
    (e_FeatureFlag_findOne env key);
  mret (match feature with
        | None => true
        | Some f => FeatureFlag.enabled f
        end).

Definition respond (c : Z) (b : Body) : M (Response * option Background) :=
  mret ({| code := c; body := b |}, None).

(** [createReminderJob(jobId, totalCount)] on the shared registry. *)
Definition create (jobId : string) (totalCount : Z) : M Job.t := λ w,
  let '(jobs', job) :=
    createReminderJob (w_jobs w) (e_clock env (length (w_events w))) jobId
      totalCount in
  ({| w_jobs := jobs'; w_totalCost := w_totalCost w;
      w_events := w_events w; w_snaps := w_snaps w ++ [jobs'] |},
   Returns job).

Definition sendReminders (req : Request.t)
    : M (Response * option Background) :=
  try_catch
    (let userId := ReqUser.userId (Request.user req) in
     match Request.tenantIds req with
     | None | Some [] =>
         respond 400 (BodyError "Tenant IDs are required (array)")
     | Some tenantIds =>
     match Request.method req with
     | None => respond 400 (BodyError invalid_method)
     | Some method =>
     if negb (bool_decide (method ∈ ["sms"; "email"])) then
       respond 400 (BodyError invalid_method)
     else
       let featureKey :=
         if String.eqb method "sms" then "sms_reminders"
         else "email_reminders" in
       isEnabled ← FeatureFlag_isEnabled featureKey;
       if negb isEnabled then
         feature ← await env (EvFeatureFlagFindOne featureKey)
           (e_FeatureFlag_findOne env featureKey);
         let unavailable :=
           toUpperCase method +:+ " reminders are temporarily unavailable." in
         let message :=
           match feature ≫= FeatureFlag.disabledMessage with
           | Some m => if truthy (Some m) then m else unavailable
           | None => unavailable
           end in
         respond 403
           (BodyUnavailable "Feature unavailable" message method false
              (if String.eqb method "sms"
               then Some "Try using email reminders instead" else None))
       else
         let targetMonth :=
           match Request.month req with
           | Some m => if truthy (Some m) then m else e_getCurrentMonth env
           | None => e_getCurrentMonth env
           end in
         user ← User_findById env userId;
         match user with
         | None => respond 404 (BodyError "User not found")
         | Some _ =>
             tenants ← Tenant_find env tenantIds userId;
             if bool_decide (tenants = []) then
               respond 404 (BodyError "No valid tenants found")
             else
               let eligibleCount :=
                 if String.eqb method "email"
                 then length
                        (List.filter (λ t, truthy (Tenant.email t)) tenants)
                 else length tenants in
               if String.eqb method "email" && (eligibleCount =? 0)%nat then
                 respond 400
                   (BodyError
                      "None of the selected tenants have email addresses")
               else
                 let jobId := e_uuidv4 env in
                 create jobId (Z.of_nat eligibleCount);;
                 mret ({| code := 202;
                          body := BodyAccepted
                            "Reminders are being sent in the background"
                            jobId (Z.of_nat eligibleCount) method |},
                       Some {| bg_jobId := jobId; bg_userId := userId;
                               bg_tenantIds := tenantIds; bg_method := method;
                               bg_targetMonth := targetMonth |})
         end
     end
     end)
    (λ _, respond 500 (BodyError "Failed to send reminders")).

End SendReminders.

End ReminderController.

(** ** The bulk helper of the SMS service *)

Section SmsService.

Variable env : Env.

(** [sendBulkSMS]: the loop over [messages] from position [i] on, [results]
    being the array built so far; a 100 ms timer is awaited after each
    send. *)
Fixpoint sendBulkSMS_from (i : nat) (messages : list (string * string))
    (results : list SendResult.t) : M (list SendResult.t) :=
  match messages with
  | [] => mret results
  | (to, message) :: rest =>
      result ← await env (EvSendSMS to message) (e_sendSMS env i to message);
      await env (EvDelay 100) (Returns tt);;
      sendBulkSMS_from (S i) rest (results ++ [result])
  end.

Definition sendBulkSMS (messages : list (string * string))
    : M (list SendResult.t) :=
  sendBulkSMS_from 0 messages [].

End SmsService.

(** ** Properties of a sequence of calls *)

Definition is_send (ev : Event) : bool :=
  match ev with
  | EvSendSMS _ _ | EvSendEmail _ _ _ => true
  | _ => false
  end.

Definition is_delay (ev : Event) : bool :=
  match ev with
  | EvDelay _ => true
  | _ => false
  end.

(** Every two consecutive channel sends have a delay between them;
    [pending] says that a send was seen and no delay since. *)
Fixpoint sends_separated (pending : bool) (events : list Event) : bool :=
  match events with
  | [] => true
  | ev :: rest =>
      if is_send ev then negb pending && sends_separated true rest
      else if is_delay ev then sends_separated false rest
      else sends_separated pending rest
  end.

(** ** What a poller of one job observes *)

(** The successive values of [jobs.get(jobId)]. *)
Definition history (jobId : string) (w : World) : list (option Job.t) :=
  (λ s : gmap string Job.t, s !! jobId) <$> w_snaps w.

Definition terminal (s : JobStatus) : bool :=
  match s with
  | Processing => false
  | Completed | Failed => true
  end.

(** The invariants of a job record. *)
Record job_ok (j : Job.t) : Prop := {
  ok_sent : (0 ≤ Job.sent j)%Z;
  ok_failed : (0 ≤ Job.failed j)%Z;
  ok_total : (Job.sent j + Job.failed j ≤ Job.total j)%Z;
  ok_details :
    Z.of_nat (length (Job.details j)) = (Job.sent j + Job.failed j)%Z;
  ok_completedAt : Job.completedAt j ≠ None ↔ terminal (Job.status j) = true
}.

(** How a later observation [b] of a job relates to an earlier one [a]. *)
Definition evolves (a b : Job.t) : Prop :=
  (Job.sent a ≤ Job.sent b)%Z ∧ (Job.failed a ≤ Job.failed b)%Z ∧
  (terminal (Job.status a) = true → b = a).

Definition history_ok (h : list (option Job.t)) : Prop :=
  (∀ i o, h !! i = Some o → ∃ j, o = Some j ∧ job_ok j) ∧
  (∀ i k a b,
     h !! i = Some (Some a) → h !! (i + k)%nat = Some (Some b) →
     evolves a b).

(** The rest of the process leaves a job that is not finished alone: ids
    are fresh tokens, no other run writes under [jobId], and the sweep
    removes finished jobs only. *)
Definition rely (env : Env) (jobId : string) : Prop :=
  ∀ k jobs j,
    jobs !! jobId = Some j → Job.completedAt j = None →
    e_others env k jobs !! jobId = Some j.

(** The world invariant of a run, and a run in progress on the job [j]. *)
Definition Inv (jobId : string) (w : World) : Prop :=
  history_ok (history jobId w) ∧
  last (history jobId w) = Some (w_jobs w !! jobId) ∧
  Forall (λ ev, is_delay ev = false) (w_events w).

Definition running (jobId : string) (w : World) (j : Job.t) : Prop :=
  Inv jobId w ∧ w_jobs w !! jobId = Some j ∧
  Job.status j = Processing ∧ Job.completedAt j = None.

(** ** A summary of the loop as a function of the collaborators' answers

    The functions of this section say, without the monad, what a run does to
    its job; [iteration_spec], [loop_spec] and [run_spec] below prove that
    the code does exactly that. *)

Section Summary.

Variable env : Env.
Variables (jobId userId : string) (tenantIds : list string)
  (method targetMonth : string).

(** What the channel step of the [try] block yields for a tenant. *)
Definition send_outcome (user : User.t) (i : nat) (tenant : Tenant.t)
    : Outcome SendResult.t :=
  if String.eqb method "sms" then
    e_sendSMS env i (Tenant.phone tenant)
      (e_renderSMSTemplate env
         (SmsTemplateData.mk (Tenant.name tenant) targetMonth
            (Tenant.rentAmount tenant) (Tenant.dueDate tenant)
            (User.name user)))
  else
    match Tenant.propertyId tenant with
    | Some p =>
        e_sendEmail env i (Tenant.email tenant)
          ("Rent Reminder - " +:+ Property.name p)
          (e_renderEmailTemplate env
             (EmailTemplateData.mk (Tenant.name tenant) targetMonth
                (Tenant.rentAmount tenant) (Tenant.dueDate tenant)
                (Tenant.unitNumber tenant) (User.name user) (User.phone user)))
    | None => Raises "Cannot read properties of null (reading 'name')"
    end.

Definition result_status (r : SendResult.t) : DeliveryStatus :=
  if SendResult.success r then StatusSent else StatusFailed.

Definition log_of (tenant : Tenant.t) (r : SendResult.t) : ReminderLogDoc.t :=
  ReminderLogDoc.mk userId (Tenant._id tenant) method (result_status r)
    (or_zero (SendResult.cost r)) (or_null (SendResult.error r)).

Definition failure_log (tenant : Tenant.t) (message : string)
    : ReminderLogDoc.t :=
  ReminderLogDoc.mk userId (Tenant._id tenant) method StatusFailed 0
    (Some message).

(** The [try] block up to its job update: the channel result, or the
    error that reaches the [catch] block. *)
Definition attempt (user : User.t) (i : nat) (tenant : Tenant.t)
    : Outcome SendResult.t :=
  match send_outcome user i tenant with
  | Raises m => Raises m
  | Returns r =>
      match e_ReminderLog_create env i false (log_of tenant r) with
      | Raises m => Raises m
      | Returns _ =>
          if SendResult.success r then
            match e_tenant_save env i tenant with
            | Raises m => Raises m
            | Returns _ => Returns r
            end
          else Returns r
      end
  end.

Definition detail_of (tenant : Tenant.t) (r : SendResult.t) : Detail.t :=
  Detail.mk (Tenant._id tenant) (Tenant.name tenant) (result_status r)
    (or_zero (SendResult.cost r)) (or_null (SendResult.error r)).

Definition failed_detail (tenant : Tenant.t) (message : string) : Detail.t :=
  Detail.mk (Tenant._id tenant) (Tenant.name tenant) StatusFailed 0
    (Some message).

(** One iteration either records a detail (with the [totalCost] key it
    writes, if any, and the new value of the local [totalCost]) or lets an
    error escape. *)
Inductive Verdict :=
| Recorded (d : Detail.t) (key : option Z) (c : Z)
| Escaped (message : string).

Definition verdict (user : User.t) (i : nat) (tenant : Tenant.t) (c : Z)
    : Verdict :=
  match attempt user i tenant with
  | Returns r =>
      let c' := (c + or_zero (SendResult.cost r))%Z in
      Recorded (detail_of tenant r) (Some c') c'
  | Raises m =>
      match e_ReminderLog_create env i true (failure_log tenant m) with
      | Returns _ => Recorded (failed_detail tenant m) None c
      | Raises m' => Escaped m'
      end
  end.

(** The job after a detail is recorded. *)
Definition push (j : Job.t) (d : Detail.t) (key : option Z) : Job.t :=
  Job.mk (Job.id j) (Job.status j) (Job.total j)
    (match Detail.status d with
     | StatusSent => Job.sent j + 1
     | StatusFailed => Job.sent j
     end)%Z
    (match Detail.status d with
     | StatusSent => Job.failed j
     | StatusFailed => Job.failed j + 1
     end)%Z
    (Job.details j ++ [d])
    (default (Job.totalCost j) key)
    (Job.startedAt j) (Job.completedAt j) (Job.error j).

(** The loop from position [i] on: the job and [totalCost] it ends with,
    and the error that escaped, if one did. *)
Fixpoint loop_result (user : User.t) (i : nat) (tenants : list Tenant.t)
    (c : Z) (j : Job.t) : Job.t * Z * option string :=
  match tenants with
  | [] => (j, c, None)
  | tenant :: rest =>
      match verdict user i tenant c with
      | Recorded d key c' => loop_result user (S i) rest c' (push j d key)
      | Escaped m => (j, c, Some m)
      end
  end.

(** The resolution step: the user and the eligible tenants, or the message
    the job fails with. *)
Definition eligible (tenants : list Tenant.t) : list Tenant.t :=
  if String.eqb method "email"
  then List.filter (λ t, truthy (Tenant.email t)) tenants
  else tenants.

Definition resolve : Outcome (User.t * list Tenant.t) :=
  match e_User_findById env userId with
  | Raises m => Raises m
  | Returns None => Raises "User not found"
  | Returns (Some user) =>
      match e_Tenant_collection env with
      | Raises m => Raises m
      | Returns docs =>
          let tenants := List.filter (matches tenantIds userId) docs in
          if bool_decide (tenants = []) then Raises "No valid tenants found"
          else Returns (user, eligible tenants)
      end
  end.

Definition set_total (j : Job.t) (n : nat) : Job.t :=
  assign j (Update.mk None None None (Some (Z.of_nat n)) None None None None).

(** The job before its last update, with the message it fails with or the
    total cost it completes with. *)
Definition outcome (j0 : Job.t) : Job.t * (string + Z) :=
  match resolve with
  | Raises m => (j0, inl m)
  | Returns (user, tenants) =>
      match loop_result user 0 tenants 0 (set_total j0 (length tenants)) with
      | (j, c, None) => (j, inr c)
      | (j, _, Some m) => (j, inl m)
      end
  end.

Definition finish (now : Z) (r : Job.t * (string + Z)) : Job.t :=
  match r.2 with
  | inl m =>
      assign r.1
        (Update.mk (Some Failed) (Some m) (Some now) None None None None None)
  | inr c =>
      assign r.1
        (Update.mk (Some Completed) None (Some now) None None None None
           (Some c))
  end.


(** The detail recorded for a tenant when no error escapes the [catch]
    block, and the details of a list of tenants from position [i] on. *)
Definition detail_at (user : User.t) (i : nat) (tenant : Tenant.t)
    : Detail.t :=
  match attempt user i tenant with
  | Returns r => detail_of tenant r
  | Raises m => failed_detail tenant m
  end.

Fixpoint details_from (user : User.t) (i : nat) (tenants : list Tenant.t)
    : list Detail.t :=
  match tenants with
  | [] => []
  | tenant :: rest => detail_at user i tenant :: details_from user (S i) rest
  end.

End Summary.

(** ** Runs, and the statements the code does not satisfy *)

(** The registry right after [createReminderJob(jobId, total)], and the
    world a run ends in. *)
Definition fresh_world (jobs : gmap string Job.t) (now : Z) (jobId : string)
    (total : Z) : World :=
  initial_world (createReminderJob jobs now jobId total).1.

Definition dispatch (env : Env) (jobId userId : string)
    (tenantIds : list string) (method targetMonth : string) (w : World)
    : World :=
  (processRemindersInBackground env jobId userId tenantIds method
     targetMonth w).1.

Definition count_status (s : DeliveryStatus) (ds : list Detail.t) : Z :=
  Z.of_nat
    (length
       (List.filter
          (λ d, match Detail.status d, s with
                | StatusSent, StatusSent | StatusFailed, StatusFailed => true
                | _, _ => false
                end) ds)).

(** The environment [env] with another outcome of the summary event write,
    and with an audit log that never fails. *)
Definition with_EventLog_create (o : Outcome unit) (env : Env) : Env :=
  {| e_clock := e_clock env;
     e_others := e_others env;
     e_User_findById := e_User_findById env;
     e_Tenant_collection := e_Tenant_collection env;
     e_renderSMSTemplate := e_renderSMSTemplate env;
     e_renderEmailTemplate := e_renderEmailTemplate env;
     e_sendSMS := e_sendSMS env;
     e_sendEmail := e_sendEmail env;
     e_ReminderLog_create := e_ReminderLog_create env;
     e_tenant_save := e_tenant_save env;
     e_EventLog_create := o;
     e_FeatureFlag_findOne := e_FeatureFlag_findOne env;
     e_uuidv4 := e_uuidv4 env;
     e_getCurrentMonth := e_getCurrentMonth env |}.

Definition with_healthy_audit (env : Env) : Env :=
  {| e_clock := e_clock env;
     e_others := e_others env;
     e_User_findById := e_User_findById env;
     e_Tenant_collection := e_Tenant_collection env;
     e_renderSMSTemplate := e_renderSMSTemplate env;
     e_renderEmailTemplate := e_renderEmailTemplate env;
     e_sendSMS := e_sendSMS env;
     e_sendEmail := e_sendEmail env;
     e_ReminderLog_create := λ _ _ _, Returns tt;
     e_tenant_save := e_tenant_save env;
     e_EventLog_create := Returns tt;
     e_FeatureFlag_findOne := e_FeatureFlag_findOne env;
     e_uuidv4 := e_uuidv4 env;
     e_getCurrentMonth := e_getCurrentMonth env |}.

(** What a failure of the audit log must not change, by the statement
    that every such failure is swallowed. *)
Definition visible (j : Job.t) :=
  (Job.status j, Job.sent j, Job.failed j, Job.details j, Job.error j).

Definition audit_failures_swallowed : Prop :=
  ∀ env jobs now jobId total userId tenantIds method targetMonth,
    rely env jobId → (0 ≤ total)%Z →
    visible <$>
      w_jobs (dispatch env jobId userId tenantIds method targetMonth
                (fresh_world jobs now jobId total)) !! jobId
    = visible <$>
      w_jobs (dispatch (with_healthy_audit env) jobId userId tenantIds method
                targetMonth (fresh_world jobs now jobId total)) !! jobId.

(** The statement that creating a job under an id in use keeps the record
    that is there. *)
Definition create_keeps_existing : Prop :=
  ∀ jobs now jobId total j,
    jobs !! jobId = Some j →
    (createReminderJob jobs now jobId total).1 !! jobId = Some j.

(** The statement that, in every run, a failure of the channel for the
    second of three eligible recipients is isolated, with the details in the
    order of the ids of the request: the ids of the details, read in order,
    are found in that order among the requested ids. *)
Definition failure_isolated_in_request_order : Prop :=
  ∀ env jobs now jobId total userId tenantIds method targetMonth user
    t1 t2 t3 r1 r3 message,
    rely env jobId → (0 ≤ total)%Z →
    resolve env userId tenantIds method = Returns (user, [t1; t2; t3]) →
    send_outcome env method targetMonth user 0 t1 = Returns r1 →
    SendResult.success r1 = true →
    send_outcome env method targetMonth user 1 t2 = Raises message →
    send_outcome env method targetMonth user 2 t3 = Returns r3 →
    SendResult.success r3 = true →
    ∃ j d1 d2 d3,
      w_jobs (dispatch env jobId userId tenantIds method targetMonth
                (fresh_world jobs now jobId total)) !! jobId = Some j ∧
      Job.status j = Completed ∧
      Job.details j = [d1; d2; d3] ∧
      Detail.tenantId <$> Job.details j `sublist_of` tenantIds ∧
      Detail.status d2 = StatusFailed ∧ Detail.error d2 ≠ None ∧
      Job.sent j = 2%Z ∧ Job.failed j = 1%Z.

(** ** Sample data *)

Definition landlord : User.t := User.mk "landlord-1" "Grace" "+256700000009".

Definition tenant_of (id name : string) (email : option string) : Tenant.t :=
  Tenant.mk id "landlord-1" (Some (Property.mk "Plaza")) name
    "+256700000001" email "A1" 500000 5 None None.

Definition alice : Tenant.t := tenant_of "t-1" "Alice" None.
Definition bob : Tenant.t := tenant_of "t-2" "Bob" None.
Definition carol : Tenant.t := tenant_of "t-3" "Carol" None.

Definition sms_sent : Outcome SendResult.t :=
  Returns (SendResult.mk true (Some 50%Z) None).

(** An environment that answers from a script: the tenant collection, what
    the SMS sender answers at each position and what the reminder-log write
    answers at each position, in the [try] block ([false]) and in the
    [catch] block ([true]).  At every suspension the sweep runs. *)
Definition scripted (docs : list Tenant.t) (sms : nat → Outcome SendResult.t)
    (log : nat → bool → Outcome unit) : Env :=
  {| e_clock := λ k, (1000 + Z.of_nat k)%Z;
     e_others := λ k jobs, cleanupOldJobs (1000 + Z.of_nat k) jobs;
     e_User_findById := λ _, Returns (Some landlord);
     e_Tenant_collection := Returns docs;
     e_renderSMSTemplate := λ d, "Hello " +:+ SmsTemplateData.tenantName d;
     e_renderEmailTemplate := λ d, "Dear " +:+ EmailTemplateData.tenantName d;
     e_sendSMS := λ i _ _, sms i;
     e_sendEmail := λ _ _ _ _, Returns (SendResult.mk true (Some 0%Z) None);
     e_ReminderLog_create := λ i in_catch _, log i in_catch;
     e_tenant_save := λ _ _, Returns tt;
     e_EventLog_create := Returns tt;
     e_FeatureFlag_findOne := λ _, Returns None;
     e_uuidv4 := "job-1";
     e_getCurrentMonth := "2025-11" |}.

Definition healthy_log : nat → bool → Outcome unit := λ _ _, Returns tt.

(** The database is lost once the first tenant is done: every later
    reminder-log write raises. *)
Definition log_lost_after_first : nat → bool → Outcome unit :=
  λ i _, if decide (i = 0%nat) then Returns tt else Raises "db down".

(** The reminder-log write of the [try] block raises for the first tenant;
    the one of the [catch] block goes through. *)
Definition log_fails_once : nat → bool → Outcome unit :=
  λ i in_catch,
    if decide (i = 0%nat) then
      if in_catch then Returns tt else Raises "db down"
    else Returns tt.

Definition sms_second_raises : nat → Outcome SendResult.t :=
  λ i, if decide (i = 1%nat) then Raises "gateway timeout" else sms_sent.

Definition ids (tenants : list Tenant.t) : list string :=
  Tenant._id <$> tenants.

Definition a_requester (userId : string) : ReqUser.t :=
  ReqUser.mk userId "someone@example.org" "Someone" "+256700000002" "landlord".

(** A computation only appends to the recorded registry states. *)
Definition grows {A} (m : M A) : Prop :=
  ∀ w, w_snaps w `prefix_of` w_snaps (m w).1.

(** ** More of the registry, the services and the middleware *)

(** Two updates in a row, as one: the keys of the later one win. *)
Definition merge_updates (u1 u2 : Update.t) : Update.t :=
  let later {A} (a b : option A) : option A :=
    match b with
    | Some x => Some x
    | None => a
    end in
  Update.mk (later (Update.status u1) (Update.status u2))
    (later (Update.error u1) (Update.error u2))
    (later (Update.completedAt u1) (Update.completedAt u2))
    (later (Update.total u1) (Update.total u2))
    (later (Update.sent u1) (Update.sent u2))
    (later (Update.failed u1) (Update.failed u2))
    (later (Update.details u1) (Update.details u2))
    (later (Update.totalCost u1) (Update.totalCost u2)).

(** The sum of the costs of a list of details. *)
Definition sum_costs (ds : list Detail.t) : Z :=
  foldr Z.add 0%Z (Detail.cost <$> ds).

(** Kinds of calls. *)
Definition is_log (ev : Event) : bool :=
  match ev with
  | EvReminderLogCreate _ => true
  | _ => false
  end.

Definition is_save (ev : Event) : bool :=
  match ev with
  | EvTenantSave _ _ => true
  | _ => false
  end.

Definition is_summary (ev : Event) : bool :=
  match ev with
  | EvEventLogCreate _ _ _ _ _ _ => true
  | _ => false
  end.

Definition per_tenant (ev : Event) : bool :=
  is_send ev || is_log ev || is_save ev.

Definition count_calls (f : Event → bool) (evs : list Event) : nat :=
  length (List.filter f evs).

(** The number of tenants a run of the loop can reach: the eligible ones
    when the user and the tenants are found, none otherwise. *)
Definition reachable (env : Env) (userId : string) (tenantIds : list string)
    (method : string) : nat :=
  match resolve env userId tenantIds method with
  | Returns (_, tenants) => length tenants
  | Raises _ => 0
  end.

(** The flag of a method, as the send handler chooses it. *)
Definition featureKey_of (method : string) : string :=
  if String.eqb method "sms" then "sms_reminders" else "email_reminders".

(** The calls of the bulk helper on [messages]: for each message the send,
    then the timer. *)
Definition bulk_calls (messages : list (string * string)) : list Event :=
  flat_map (λ m, [EvSendSMS m.1 m.2; EvDelay 100]) messages.

(** *** The SMS sender *)

Module Recipient.
(** An element of [response.SMSMessageData.Recipients]. *)
Record t := mk { status : string; statusCode : Z; messageId : string }.
End Recipient.

Module GatewayResponse.
(** What [smsService.send] resolves with: [SMSMessageData] and, in it,
    [Recipients] may be missing. *)
Record t := mk { Recipients : option (option (list Recipient.t)) }.
End GatewayResponse.

Module SmsResult.
(** The object [sendSMS] resolves with. *)
Record t := mk {
  success : bool;
  status : string;
  messageId : option string;
  error : option string;
  cost : Z;
  recipient : string
}.
End SmsResult.

(** [SMS_COST] *)
Definition SMS_COST : Z := 50.

(** [sendSMS({ to, message })], given what the gateway call of its [try]
    block does: [getSmsService()] or [smsService.send] raising, or the
    response ([None] when it is [undefined]). *)
Definition sendSMS (gateway : Outcome (option GatewayResponse.t))
    (to message : string) : SmsResult.t :=
  let failed (e : string) := SmsResult.mk false "failed" None (Some e) 0 to in
  let caught (m : string) :=
    failed (if String.eqb m EmptyString then "SMS sending failed" else m) in
  match gateway with
  | Raises m => caught m
  | Returns None =>
      caught "Cannot read properties of undefined (reading 'SMSMessageData')"
  | Returns (Some response) =>
      match GatewayResponse.Recipients response with
      | Some (Some recipients) =>
          match recipients with
          | [] => caught "Cannot read properties of undefined (reading 'status')"
          | recipient :: _ =>
              if String.eqb (Recipient.status recipient) "Success"
                 || (Recipient.statusCode recipient =? 101)%Z
              then SmsResult.mk true "sent"
                     (Some (Recipient.messageId recipient)) None SMS_COST to
              else failed (Recipient.status recipient)
          end
      | _ => failed "Unexpected response format"
      end
  end.

(** What the dispatch loop reads of the result. *)
Definition as_SendResult (r : SmsResult.t) : SendResult.t :=
  SendResult.mk (SmsResult.success r) (Some (SmsResult.cost r))
    (SmsResult.error r).

(** *** [formatOrdinal] *)

(** [s[k]] for [s = ['th', 'st', 'nd', 'rd']]: [undefined] out of range. *)
Definition ordinal_suffix_at (k : Z) : option string :=
  if (k =? 0)%Z then Some "th"
  else if (k =? 1)%Z then Some "st"
  else if (k =? 2)%Z then Some "nd"
  else if (k =? 3)%Z then Some "rd"
  else None.

(** [s[(v - 20) % 10] || s[v] || s[0]]: [%] is the remainder that takes
    the sign of the dividend. *)
Definition ordinal_suffix (v : Z) : string :=
  match ordinal_suffix_at (Z.rem (v - 20) 10) with
  | Some s => s
  | None =>
      match ordinal_suffix_at v with
      | Some s => s
      | None => "th"
      end
  end.

(** [Number.MAX_SAFE_INTEGER], [2^53 - 1]: up to it, in absolute value,
    every integer is a double, the remainder and the subtraction are exact
    and the number is printed with all its digits. *)
Definition MAX_SAFE_INTEGER : Z := 9007199254740991.

(** [formatOrdinal(num)] for [Number(num)] an integer [n] with
    [|n| <= MAX_SAFE_INTEGER]; outside this range, where a double prints
    rounded digits or an exponent, the result is not modelled ([None]). *)
Definition formatOrdinal (n : Z) : option string :=
  if (Z.abs n <=? MAX_SAFE_INTEGER)%Z
  then Some (pretty n +:+ ordinal_suffix (Z.rem n 100))
  else None.

(** *** The role guards, the error handler *)

(** What a middleware does with a request: it calls [next()] or answers. *)
Inductive Handled := CallsNext | Responds (r : Response).

Definition answer (c : Z) (e : string) : Handled :=
  Responds {| code := c; body := BodyError e |}.

(** [requireAdmin] and [requireLandlord], on [req.user]. *)
Definition requireAdmin (user : option ReqUser.t) : Handled :=
  match user with
  | None => answer 401 "Authentication required"
  | Some u =>
      if negb (String.eqb (ReqUser.role u) "admin") then
        answer 403
          "Admin access required. You do not have permission to access this resource."
      else CallsNext
  end.

Definition requireLandlord (user : option ReqUser.t) : Handled :=
  match user with
  | None => answer 401 "Authentication required"
  | Some u =>
      if negb (String.eqb (ReqUser.role u) "landlord") then
        answer 403 "Landlord access required"
      else CallsNext
  end.

Module Err.
(** The error object the error handler receives: [errors] holds the
    messages of the values of [err.errors], [keyPattern] the keys of
    [err.keyPattern]; a missing property is [None]. *)
Record t := mk {
  name : string;
  message : option string;
  stack : option string;
  code : option Z;
  errors : option (list string);
  keyPattern : option (list string)
}.
End Err.

Inductive ErrorDetails :=
| DetailsList (messages : list string)
| DetailsText (text : string).

Module ErrorBody.
(** The JSON body of an error response; a key that is absent or
    [undefined] is [None]. *)
Record t := mk {
  error : string;
  details : option ErrorDetails;
  stack : option string
}.
End ErrorBody.

(** [haystack.includes(needle)] *)
Fixpoint includes (needle haystack : string) : bool :=
  String.prefix needle haystack
  || match haystack with
     | EmptyString => false
     | String _ rest => includes needle rest
     end.

(** [errorHandler(err, req, res, next)]: the status and body it answers
    with, given [res.statusCode] and whether [NODE_ENV] is ['development'];
    it raises when it reads the keys of a missing object. *)
Definition errorHandler (development : bool) (err : Err.t) (statusCode : Z)
    : Outcome (Z * ErrorBody.t) :=
  let statusCode := if (statusCode =? 200)%Z then 500%Z else statusCode in
  if String.eqb (Err.name err) "ValidationError" then
    match Err.errors err with
    | None => Raises "Cannot convert undefined or null to object"
    | Some errors =>
        Returns (400%Z,
          ErrorBody.mk "Validation failed" (Some (DetailsList errors)) None)
    end
  else if String.eqb (Err.name err) "CastError" then
    Returns (400%Z,
      ErrorBody.mk "Invalid ID format" (DetailsText <$> Err.message err) None)
  else if bool_decide (Err.code err = Some 11000%Z) then
    match Err.keyPattern err with
    | None => Raises "Cannot convert undefined or null to object"
    | Some keys =>
        let field := default "undefined" (head keys) in
        Returns (409%Z,
          ErrorBody.mk ("Duplicate value for " +:+ field)
            (Some (DetailsText (field +:+ " already exists"))) None)
    end
  else if truthy (Err.message err)
          && includes "Clerk" (default EmptyString (Err.message err)) then
    Returns (401%Z,
      ErrorBody.mk "Authentication failed"
        (if development then DetailsText <$> Err.message err
         else Some (DetailsText "Invalid or expired token")) None)
  else if String.eqb (Err.name err) "JsonWebTokenError" then
    Returns (401%Z, ErrorBody.mk "Invalid token" None None)
  else if String.eqb (Err.name err) "TokenExpiredError" then
    Returns (401%Z, ErrorBody.mk "Token expired" None None)
  else
    Returns (statusCode,
      ErrorBody.mk
        (if truthy (Err.message err)
         then default EmptyString (Err.message err)
         else "Internal server error")
        None
        (if development then Err.stack err else None)).

(** [notFound(req, res, next)]: it sets the status to 404 and hands this
    error to the error handler; [stack] is the trace the runtime attaches. *)
Definition notFound (originalUrl stack : string) : Z * Err.t :=
  (404%Z,
   Err.mk "Error" (Some ("Not Found - " +:+ originalUrl)) (Some stack) None
     None None).

(** *** Feature flags *)

Inductive Gate :=
| GateNext
| GateBlocked (code : Z) (error message featureKey : string) (enabled : bool).

Module MethodInfo.
Record t := mk { enabled : bool; available : bool; message : option string }.
End MethodInfo.

Inductive MethodsResponse :=
| MethodsOk (code : Z) (sms email : MethodInfo.t) (hasAnyMethod : bool)
    (recommendedMethod : option string)
| MethodsFailed (code : Z) (error : string).

(** [Promise.all([m1, m2])]: both calls are started, in order, before
    either settles; it rejects when one of them does. *)
Definition Promise_all2 {A B} (m1 : M A) (m2 : M B) : M (A * B) := λ w,
  let '(w1, o1) := m1 w in
  let '(w2, o2) := m2 w1 in
  (w2,
   match o1, o2 with
   | Returns a, Returns b => Returns (a, b)
   | Raises e, _ => Raises e
   | _, Raises e => Raises e
   end).

Section FeatureFlags.

Variable env : Env.

(** [FeatureFlag.findOne({ key })], answering [o]. *)
Definition FeatureFlag_findOne (key : string)
    (o : Outcome (option FeatureFlag.t)) : M (option FeatureFlag.t) :=
  await env (EvFeatureFlagFindOne key) o.

(** [FeatureFlag.isEnabled(key)], its lookup answering [o]. *)
Definition isEnabled (key : string) (o : Outcome (option FeatureFlag.t))
    : M bool :=
  feature ← FeatureFlag_findOne key o;
  mret (match feature with
        | None => true
        | Some f => FeatureFlag.enabled f
        end).

(** [feature?.disabledMessage || fallback] *)
Definition disabledMessage_or (feature : option FeatureFlag.t)
    (fallback : string) : string :=
  match feature ≫= FeatureFlag.disabledMessage with
  | Some m => if truthy (Some m) then m else fallback
  | None => fallback
  end.

(** [requireFeature(featureKey)]: [first] is what the lookup of [isEnabled]
    answers, [second] what the lookup made for the message answers. *)
Definition requireFeature (featureKey : string)
    (first second : Outcome (option FeatureFlag.t)) : M Gate :=
  try_catch
    (enabled ← isEnabled featureKey first;
     if negb enabled then
       feature ← FeatureFlag_findOne featureKey second;
       mret (GateBlocked 403 "Feature unavailable"
               (disabledMessage_or feature
                  "This feature is temporarily unavailable.")
               featureKey false)
     else mret GateNext)
    (λ _, mret GateNext).

(** [getAvailableMethods]: the four lookups answer [sms1], [email1] (those
    of [isEnabled]) and [sms2], [email2] (those made for the messages). *)
Definition getAvailableMethods
    (sms1 email1 sms2 email2 : Outcome (option FeatureFlag.t))
    : M MethodsResponse :=
  try_catch
    ('(smsEnabled, emailEnabled) ←
       Promise_all2 (isEnabled "sms_reminders" sms1)
         (isEnabled "email_reminders" email1);
     '(smsFeature, emailFeature) ←
       Promise_all2 (FeatureFlag_findOne "sms_reminders" sms2)
         (FeatureFlag_findOne "email_reminders" email2);
     mret (MethodsOk 200
             (MethodInfo.mk smsEnabled smsEnabled
                (if negb smsEnabled
                 then smsFeature ≫= FeatureFlag.disabledMessage else None))
             (MethodInfo.mk emailEnabled emailEnabled
                (if negb emailEnabled
                 then emailFeature ≫= FeatureFlag.disabledMessage else None))
             (smsEnabled || emailEnabled)
             (if smsEnabled then Some "sms"
              else if emailEnabled then Some "email" else None)))
    (λ _, mret (MethodsFailed 500 "Failed to check available methods")).

End FeatureFlags.

(** *** More sample data *)

(** The environment [env] with the SMS sender of the service, [gateway]
    saying what the gateway does at each position, and with another answer
    of the flag store. *)
Definition with_gateway (gateway : nat → Outcome (option GatewayResponse.t))
    (env : Env) : Env :=
  {| e_clock := e_clock env;
     e_others := e_others env;
     e_User_findById := e_User_findById env;
     e_Tenant_collection := e_Tenant_collection env;
     e_renderSMSTemplate := e_renderSMSTemplate env;
     e_renderEmailTemplate := e_renderEmailTemplate env;
     e_sendSMS := λ i to message,
       Returns (as_SendResult (sendSMS (gateway i) to message));
     e_sendEmail := e_sendEmail env;
     e_ReminderLog_create := e_ReminderLog_create env;
     e_tenant_save := e_tenant_save env;
     e_EventLog_create := e_EventLog_create env;
     e_FeatureFlag_findOne := e_FeatureFlag_findOne env;
     e_uuidv4 := e_uuidv4 env;
     e_getCurrentMonth := e_getCurrentMonth env |}.

Definition with_FeatureFlag_findOne
    (flags : string → Outcome (option FeatureFlag.t)) (env : Env) : Env :=
  {| e_clock := e_clock env;
     e_others := e_others env;
     e_User_findById := e_User_findById env;
     e_Tenant_collection := e_Tenant_collection env;
     e_renderSMSTemplate := e_renderSMSTemplate env;
     e_renderEmailTemplate := e_renderEmailTemplate env;
     e_sendSMS := e_sendSMS env;
     e_sendEmail := e_sendEmail env;
     e_ReminderLog_create := e_ReminderLog_create env;
     e_tenant_save := e_tenant_save env;
     e_EventLog_create := e_EventLog_create env;
     e_FeatureFlag_findOne := flags;
     e_uuidv4 := e_uuidv4 env;
     e_getCurrentMonth := e_getCurrentMonth env |}.

(** The gateway delivers to the first tenant and is unreachable after. *)
Definition gateway_first_only : nat → Outcome (option GatewayResponse.t) :=
  λ i,
    if decide (i = 0%nat) then
      Returns
        (Some (GatewayResponse.mk
                 (Some (Some [Recipient.mk "Success" 101 "ATXid_1"]))))
    else Raises "connect ECONNREFUSED".

(** A job that completed at time 1000. *)
Definition old_job : Job.t :=
  Job.mk "job-0" Completed 1 1 0
    [Detail.mk "t-1" "Alice" StatusSent 50 None] 50 900 (Some 1000%Z) None.

Definition send_request (tenantIds : option (list string))
    (method : option string) : Request.t :=
  Request.mk (a_requester "landlord-1") "job-0" tenantIds method None.

(** *** The email sender *)

Module EmailResult.
(** The object [sendEmail] resolves with. *)
Record t := mk {
  success : bool;
  status : string;
  messageId : option string;
  error : option string;
  recipient : option string;
  cost : Z
}.
End EmailResult.

(** [sendEmail({ to, subject, html })] with [html] a string, given what the
    transport calls of its [try] block do: [createTransporter()] or
    [transporter.sendMail] raising, or the [info] object ([None] when it is
    [undefined]) with its [messageId]. *)
Definition sendEmail (transport : Outcome (option (option string)))
    (to : option string) : EmailResult.t :=
  let caught (m : string) :=
    EmailResult.mk false "failed" None
      (Some (if String.eqb m EmptyString then "Email sending failed" else m))
      to 0 in
  match transport with
  | Raises m => caught m
  | Returns None =>
      caught "Cannot read properties of undefined (reading 'messageId')"
  | Returns (Some messageId) => EmailResult.mk true "sent" messageId None to 0
  end.

(** What the dispatch loop reads of the result. *)
Definition email_SendResult (r : EmailResult.t) : SendResult.t :=
  SendResult.mk (EmailResult.success r) (Some (EmailResult.cost r))
    (EmailResult.error r).

(** The environment [env] with the email sender of the service,
    [transport] saying what the mail transport does at each position. *)
Definition with_transport
    (transport : nat → Outcome (option (option string))) (env : Env) : Env :=
  {| e_clock := e_clock env;
     e_others := e_others env;
     e_User_findById := e_User_findById env;
     e_Tenant_collection := e_Tenant_collection env;
     e_renderSMSTemplate := e_renderSMSTemplate env;
     e_renderEmailTemplate := e_renderEmailTemplate env;
     e_sendSMS := e_sendSMS env;
     e_sendEmail := λ i to subject html,
       Returns (email_SendResult (sendEmail (transport i) to));
     e_ReminderLog_create := e_ReminderLog_create env;
     e_tenant_save := e_tenant_save env;
     e_EventLog_create := e_EventLog_create env;
     e_FeatureFlag_findOne := e_FeatureFlag_findOne env;
     e_uuidv4 := e_uuidv4 env;
     e_getCurrentMonth := e_getCurrentMonth env |}.

Definition dora : Tenant.t := tenant_of "t-4" "Dora" (Some "dora@example.org").
Definition emil : Tenant.t := tenant_of "t-5" "Emil" (Some "emil@example.org").

(** The mail transport accepts the first message and times out after. *)
Definition transport_first_only : nat → Outcome (option (option string)) :=
  λ i,
    if decide (i = 0%nat) then Returns (Some (Some "<1@rentalert>"))
    else Raises "Connection timeout".

(** ** Histories *)

Lemma evolves_refl (a : Job.t) : evolves a a.
Proof. unfold evolves. split; [lia | split; [lia | done]]. Qed.

Lemma evolves_trans (a b c : Job.t) : evolves a b → evolves b c → evolves a c.
Proof.
  intros (Hs1 & Hf1 & Ht1) (Hs2 & Hf2 & Ht2).
  split; [lia | split; [lia |]].
  intros Ha. specialize (Ht1 Ha). subst b. auto.
Qed.

Lemma history_ok_singleton (j : Job.t) : job_ok j → history_ok [Some j].
Proof.
  intros Hj. split.
  - intros [|i] o Ho; simplify_eq/=; eauto.
  - intros [|i] k a b Ha Hb; simplify_eq/=.
    destruct k; simplify_eq/=. apply evolves_refl.
Qed.

Lemma history_ok_snoc (h : list (option Job.t)) (j j' : Job.t) :
  history_ok h → last h = Some (Some j) → job_ok j' → evolves j j' →
  history_ok (h ++ [Some j']).
Proof.
  intros [Hall Hchain] Hlast Hj' Hev.
  assert (Hlen : h !! (length h - 1)%nat = Some (Some j) ∧ (0 < length h)%nat).
  { rewrite last_lookup in Hlast.
    replace (length h - 1)%nat with (pred (length h)) by lia.
    split; [done |]. destruct h; [done | simpl; lia]. }
  destruct Hlen as [Hlast' Hpos].
  split.
  - intros i o Ho. apply lookup_app_Some in Ho as [Ho | [Hi Ho]]; [eauto |].
    apply list_lookup_singleton_Some in Ho as [_ <-]. eauto.
  - intros i k a b Ha Hb.
    apply lookup_app_Some in Hb as [Hb | [Hik Hb]].
    + apply lookup_app_Some in Ha as [Ha | [Hi Ha]]; [eauto |].
      apply lookup_lt_Some in Hb. lia.
    + apply list_lookup_singleton_Some in Hb as [Hz Hb]. simplify_eq.
      apply lookup_app_Some in Ha as [Ha | [Hi Ha]].
      * apply evolves_trans with j; [| done].
        apply (Hchain i (length h - 1 - i)%nat); [done |].
        replace (i + (length h - 1 - i))%nat with (length h - 1)%nat; [done |].
        apply lookup_lt_Some in Ha. lia.
      * apply list_lookup_singleton_Some in Ha as [_ Ha]. simplify_eq.
        apply evolves_refl.
Qed.

(** ** The sweep *)

Lemma cleanupOldJobs_lookup (t : Z) (jobs : gmap string Job.t) (id : string)
    (j : Job.t) :
  cleanupOldJobs t jobs !! id = Some j
  ↔ jobs !! id = Some j ∧ expired t j = false.
Proof. unfold cleanupOldJobs. by rewrite map_lookup_filter_Some. Qed.

(** A process whose only other writer is the sweep satisfies [rely]. *)
Lemma cleanup_rely (env : Env) (jobId : string) :
  (∀ k jobs, ∃ t, e_others env k jobs = cleanupOldJobs t jobs) →
  rely env jobId.
Proof.
  intros Hsweep k jobs j Hj Hc. destruct (Hsweep k jobs) as [t ->].
  apply cleanupOldJobs_lookup. split; [done |]. unfold expired. by rewrite Hc.
Qed.

(** ** The primitive steps of a run *)

Section Run.

Variable env : Env.
Variable jobId : string.
Hypothesis others_rely : rely env jobId.

Lemma running_lookup (w : World) (j : Job.t) :
  running jobId w j → w_jobs w !! jobId = Some j.
Proof. by intros (_ & ? & _). Qed.

Lemma running_job_ok (w : World) (j : Job.t) : running jobId w j → job_ok j.
Proof.
  intros (([Hall _] & Hlast & _) & Hj & _).
  rewrite Hj, last_lookup in Hlast.
  destruct (Hall _ _ Hlast) as (j' & ? & ?). by simplify_eq.
Qed.

Lemma Inv_tick (w : World) (j : Job.t) (ev : Event) :
  Inv jobId w → w_jobs w !! jobId = Some j → Job.completedAt j = None →
  is_delay ev = false →
  Inv jobId (tick env ev w) ∧ w_jobs (tick env ev w) !! jobId = Some j.
Proof.
  intros (Hh & Hl & He) Hj Hc Hev.
  assert (Hj' : w_jobs (tick env ev w) !! jobId = Some j)
    by (by apply others_rely).
  assert (Hhist : history jobId (tick env ev w)
                  = history jobId w ++ [Some j]).
  { unfold history. simpl. by rewrite fmap_app, <- Hj'. }
  split; [| done]. split; [| split].
  - rewrite Hhist. rewrite Hj in Hl.
    assert (job_ok j).
    { destruct Hh as [Hall _]. rewrite last_lookup in Hl.
      destruct (Hall _ _ Hl) as (j' & ? & ?). by simplify_eq. }
    eapply history_ok_snoc; eauto using evolves_refl.
  - rewrite Hhist, Hj'. apply last_snoc.
  - simpl. apply Forall_app. split; [done |]. by constructor.
Qed.

Lemma running_tick (w : World) (j : Job.t) (ev : Event) :
  running jobId w j → is_delay ev = false → running jobId (tick env ev w) j.
Proof.
  intros (HI & Hj & Hs & Hc) Hev.
  destruct (Inv_tick w j ev) as [? ?]; try done.
Qed.

Lemma running_with_totalCost (w : World) (j : Job.t) (c : Z) :
  running jobId w j → running jobId (with_totalCost c w) j.
Proof. by intros ((? & ? & ?) & ? & ? & ?). Qed.

Lemma Inv_put (w : World) (j : Job.t) (u : Update.t) :
  running jobId w j → job_ok (assign j u) →
  (Job.sent j ≤ Job.sent (assign j u))%Z →
  (Job.failed j ≤ Job.failed (assign j u))%Z →
  Inv jobId (put jobId u w) ∧
  w_jobs (put jobId u w) !! jobId = Some (assign j u).
Proof.
  intros ((Hh & Hl & He) & Hj & Hs & Hc) Hok Hsent Hfailed.
  assert (Hj' : w_jobs (put jobId u w) !! jobId = Some (assign j u)).
  { simpl. unfold updateJobProgress. rewrite Hj. apply lookup_insert_eq. }
  assert (Hhist : history jobId (put jobId u w)
                  = history jobId w ++ [Some (assign j u)]).
  { unfold history. simpl. by rewrite fmap_app, <- Hj'. }
  split; [| done]. split; [| split].
  - rewrite Hhist. rewrite Hj in Hl.
    eapply history_ok_snoc; eauto.
    split; [done | split; [done |]]. by rewrite Hs.
  - rewrite Hhist, Hj'. apply last_snoc.
  - done.
Qed.

Lemma push_ok (j : Job.t) (d : Detail.t) (key : option Z) :
  job_ok j → (Job.sent j + Job.failed j < Job.total j)%Z →
  job_ok (push j d key).
Proof.
  intros [? ? ? Hd ?] Hroom.
  split; simpl; try done; try (destruct (Detail.status d); lia).
  rewrite length_app. simpl. destruct (Detail.status d); lia.
Qed.

Lemma running_push (w : World) (j : Job.t) (u : Update.t) (d : Detail.t)
    (key : option Z) :
  running jobId w j → assign j u = push j d key →
  (Job.sent j + Job.failed j < Job.total j)%Z →
  running jobId (put jobId u w) (push j d key).
Proof.
  intros Hrun Heq Hroom.
  pose proof (running_job_ok _ _ Hrun) as Hok.
  destruct (Inv_put w j u Hrun) as [HI Hj].
  - rewrite Heq. by apply push_ok.
  - rewrite Heq. simpl. destruct (Detail.status d); lia.
  - rewrite Heq. simpl. destruct (Detail.status d); lia.
  - destruct Hrun as (_ & _ & Hs & Hc).
    rewrite Heq in Hj. split; [done | split; [done |]]. by simpl.
Qed.

End Run.

(** ** Symbolic execution of the monadic code *)

Ltac exec :=
  cbv beta iota zeta delta
    [mbind M_bind mret M_ret try_catch bind ret await update jobs_get
     read_job get_totalCost set_totalCost newDate throw].

Ltac solve_running :=
  repeat match goal with
  | |- running _ (tick _ _ _) _ =>
      apply running_tick; [assumption | | reflexivity]
  | |- running _ (with_totalCost _ _) _ => apply running_with_totalCost
  | |- running _ _ _ => eassumption
  end.

Ltac lookup_job :=
  match goal with
  | Hrun : running ?id _ ?j |- context [w_jobs ?W !! ?id] =>
      let H := fresh "Hat" in
      assert (H : running id W j) by solve_running;
      rewrite (running_lookup id W j H)
  end.

Ltac step :=
  first
    [ progress exec
    | match goal with
      | H : _ = Returns _ |- _ => rewrite H
      | H : _ = Raises _ |- _ => rewrite H
      | H : SendResult.success _ = _ |- _ => rewrite H
      | H : bool_decide _ = _ |- _ => rewrite H
      end
    | lookup_job ].

Ltac finish :=
  eexists; split; [reflexivity |];
  first
    [ split;
      [ eapply running_push; [solve_running | reflexivity | assumption]
      | reflexivity ]
    | solve_running ].

Ltac recovery :=
  match goal with
  | |- context [e_ReminderLog_create ?e ?i true ?doc] =>
      destruct (e_ReminderLog_create e i true doc) as [[] | ?] eqn:?
  end;
  repeat step; finish.

(** ** The loop, one iteration at a time *)

Section Loop.

Variable env : Env.
Variables (jobId userId : string) (tenantIds : list string)
  (method targetMonth : string).
Hypothesis others_rely : rely env jobId.

(** One iteration ([try] block and [catch] block) does what [verdict] says:
    it records one detail and goes on, or lets the error of the [catch]
    block's own write escape with the job untouched. *)
Lemma iteration_spec (user : User.t) (i : nat) (tenant : Tenant.t)
    (w : World) (j : Job.t) :
  running jobId w j → (Job.sent j + Job.failed j < Job.total j)%Z →
  match verdict env userId method targetMonth user i tenant (w_totalCost w) with
  | Recorded d key c =>
      ∃ w',
        try_catch
          (process_tenant env jobId userId method targetMonth user i tenant)
          (recover env jobId userId method i tenant) w = (w', Returns tt) ∧
        running jobId w' (push j d key) ∧ w_totalCost w' = c
  | Escaped m =>
      ∃ w',
        try_catch
          (process_tenant env jobId userId method targetMonth user i tenant)
          (recover env jobId userId method i tenant) w = (w', Raises m) ∧
        running jobId w' j
  end.
Proof.
  intros Hrun Hroom.
  unfold verdict, attempt, send_outcome, process_tenant, recover.
  unfold log_of, failure_log, detail_of, failed_detail, result_status.
  destruct (String.eqb method "sms") eqn:Hm.
  - destruct (e_sendSMS env i _ _) as [r | m] eqn:Hsend; [| recovery].
    destruct (SendResult.success r) eqn:Hok;
      (destruct (e_ReminderLog_create env i false _) as [[] | m] eqn:Hlog;
       [| recovery]).
    + destruct (e_tenant_save env i tenant) as [[] | m] eqn:Hsave;
        [| recovery].
      repeat step. finish.
    + repeat step. finish.
  - destruct (Tenant.propertyId tenant) as [p |] eqn:Hp; [| recovery].
    destruct (e_sendEmail env i _ _ _) as [r | m] eqn:Hsend; [| recovery].
    destruct (SendResult.success r) eqn:Hok;
      (destruct (e_ReminderLog_create env i false _) as [[] | m] eqn:Hlog;
       [| recovery]).
    + destruct (e_tenant_save env i tenant) as [[] | m] eqn:Hsave;
        [| recovery].
      repeat step. finish.
    + repeat step. finish.
Qed.


(** The loop does what [loop_result] says. *)
Lemma loop_spec (user : User.t) (tenants : list Tenant.t) :
  ∀ (i : nat) (w : World) (j : Job.t),
    running jobId w j →
    (Job.sent j + Job.failed j + Z.of_nat (length tenants) ≤ Job.total j)%Z →
    let r := loop_result env userId method targetMonth user i tenants
               (w_totalCost w) j in
    ∃ w',
      for_each_tenant env jobId userId method targetMonth user i tenants w
      = (w', match r.2 with None => Returns tt | Some m => Raises m end) ∧
      running jobId w' r.1.1 ∧ (r.2 = None → w_totalCost w' = r.1.2).
Proof.
  induction tenants as [| tenant rest IH]; intros i w j Hrun Hroom.
  - simpl. eauto.
  - simpl in Hroom. cbn [loop_result for_each_tenant].
    pose proof (iteration_spec user i tenant w j Hrun) as Hit.
    destruct (verdict env userId method targetMonth user i tenant
                (w_totalCost w)) as [d key c | m].
    + destruct Hit as (w1 & Hw1 & Hrun1 & Hc1); [lia |].
      destruct (IH (S i) w1 (push j d key) Hrun1) as (w' & Hw' & Hrun' & Hc').
      { simpl. destruct (Detail.status d); lia. }
      rewrite Hc1 in Hw', Hrun', Hc'.
      exists w'. split; [| done].
      unfold mbind, M_bind, bind. by rewrite Hw1.
    + destruct Hit as (w1 & Hw1 & Hrun1); [lia |].
      exists w1. split; [| done].
      unfold mbind, M_bind, bind. by rewrite Hw1.
Qed.

Lemma fail_ok (j : Job.t) (m : string) (now : Z) :
  job_ok j →
  job_ok (assign j
    (Update.mk (Some Failed) (Some m) (Some now) None None None None None)).
Proof. intros [? ? ? ? ?]. by split. Qed.

Lemma complete_ok (j : Job.t) (c now : Z) :
  job_ok j →
  job_ok (assign j
    (Update.mk (Some Completed) None (Some now) None None None None (Some c))).
Proof. intros [? ? ? ? ?]. by split. Qed.

Lemma fail_job_spec (w : World) (j : Job.t) (m : string) :
  running jobId w j →
  ∃ w' now,
    fail_job env jobId m w = (w', Returns tt) ∧ Inv jobId w' ∧
    w_jobs w' !! jobId = Some (finish now (j, inl m)).
Proof.
  intros Hrun. unfold fail_job. exec.
  eexists _, _. split; [reflexivity |].
  apply Inv_put; [done | | simpl; lia | simpl; lia].
  apply fail_ok. by eapply running_job_ok.
Qed.

Lemma logEvent_spec (w : World) (j : Job.t) (eventType : string)
    (sent failed totalCost : Z) :
  running jobId w j →
  ∃ w',
    EventLog_logEvent env userId eventType method sent failed totalCost w
    = (w', Returns tt) ∧
    running jobId w' j ∧ w_totalCost w' = w_totalCost w.
Proof.
  intros Hrun. unfold EventLog_logEvent.
  destruct (e_EventLog_create env) as [[] | m]; exec;
    (eexists; split; [reflexivity | split; [solve_running | reflexivity]]).
Qed.

Lemma running_set_total (w : World) (j : Job.t) (n : nat) :
  running jobId w j → Job.sent j = 0%Z → Job.failed j = 0%Z →
  running jobId
    (put jobId
       (Update.mk None None None (Some (Z.of_nat n)) None None None None) w)
    (set_total j n).
Proof.
  intros Hrun Hs Hf.
  pose proof (running_job_ok _ _ _ Hrun) as [? ? ? ? ?].
  destruct (Inv_put jobId w j
    (Update.mk None None None (Some (Z.of_nat n)) None None None None) Hrun)
    as [HI Hj]; [| simpl; lia | simpl; lia |].
  - split; simpl; try done. lia.
  - destruct Hrun as (_ & _ & ? & ?). split; [done | split; [done |]]. by simpl.
Qed.

(** A run on a job with no result yet always returns, keeps the invariant
    and leaves the job that [outcome] and [finish] describe. *)
Lemma run_spec (w : World) (j0 : Job.t) :
  running jobId w j0 → Job.sent j0 = 0%Z → Job.failed j0 = 0%Z →
  ∃ w' now,
    processRemindersInBackground env jobId userId tenantIds method
      targetMonth w = (w', Returns tt) ∧
    Inv jobId w' ∧
    w_jobs w' !! jobId
    = Some (finish now (outcome env userId tenantIds method targetMonth j0)).
Proof.
  intros Hrun Hs Hf.
  pose proof (running_job_ok _ _ _ Hrun) as Hok.
  unfold processRemindersInBackground, outcome, resolve, User_findById,
    Tenant_find.
  destruct (e_User_findById env userId) as [[user |] | m] eqn:Huser.
  - destruct (e_Tenant_collection env) as [docs | m] eqn:Hdocs.
    + destruct (bool_decide (List.filter (matches tenantIds userId) docs = []))
        eqn:Hnil.
      * repeat step.
        edestruct (fail_job_spec
          (tick env (EvTenantFind tenantIds userId)
             (tick env (EvUserFindById userId) w)) j0)
          as (w' & now & Hw' & HI & Hj); [solve_running |].
        rewrite Hw'. eauto.
      * repeat step.
        fold (eligible method (List.filter (matches tenantIds userId) docs)).
        set (el := eligible method (List.filter (matches tenantIds userId) docs)).
        match goal with
        | |- context [for_each_tenant _ _ _ _ _ _ _ _ ?W] =>
            assert (Hrun1 : running jobId W (set_total j0 (length el)))
        end.
        { apply running_with_totalCost, running_set_total; [solve_running | done..]. }
        destruct (loop_spec user el 0 _ _ Hrun1) as (w1 & Hw1 & Hrun2 & Hc).
        { simpl. lia. }
        rewrite Hw1. cbn [w_totalCost with_totalCost] in *.
        destruct (loop_result env userId method targetMonth user 0 el 0
                    (set_total j0 (length el))) as [[j c] [m |]];
          cbn [fst snd] in *.
        -- destruct (fail_job_spec w1 j m Hrun2) as (w' & now & Hw' & HI & Hj).
           rewrite Hw'. eauto.
        -- rewrite (running_lookup _ _ _ Hrun2).
           destruct (logEvent_spec w1 j "REMINDERS_SENT" (Job.sent j)
                       (Job.failed j) (w_totalCost w1) Hrun2)
             as (w2 & Hw2 & Hrun3 & Hc2).
           rewrite Hw2. rewrite (Hc eq_refl).
           eexists _, _. split; [reflexivity |].
           apply Inv_put; [done | | simpl; lia | simpl; lia].
           apply complete_ok. by eapply running_job_ok.
    + repeat step.
      edestruct (fail_job_spec
          (tick env (EvTenantFind tenantIds userId)
             (tick env (EvUserFindById userId) w)) j0)
          as (w' & now & Hw' & HI & Hj); [solve_running |].
      rewrite Hw'. eauto.
  - repeat step.
    edestruct (fail_job_spec (tick env (EvUserFindById userId) w) j0)
      as (w' & now & Hw' & HI & Hj); [solve_running |].
    rewrite Hw'. eauto.
  - repeat step.
    edestruct (fail_job_spec (tick env (EvUserFindById userId) w) j0)
      as (w' & now & Hw' & HI & Hj); [solve_running |].
    rewrite Hw'. eauto.
Qed.

End Loop.

(** ** Isolation of per-tenant failures *)

Section Isolation.

Variable env : Env.
Variables (jobId userId : string) (tenantIds : list string)
  (method targetMonth : string).

Lemma details_from_ids (user : User.t) (tenants : list Tenant.t) :
  ∀ i, Detail.tenantId <$> details_from env userId method targetMonth user i tenants
       = Tenant._id <$> tenants.
Proof.
  induction tenants as [| t rest IH]; intros i; [done |].
  simpl. rewrite IH. f_equal.
  unfold detail_at. by destruct (attempt _ _ _ _ _ _ _).
Qed.

Lemma details_from_lookup (user : User.t) (tenants : list Tenant.t) :
  ∀ i k t,
    tenants !! k = Some t →
    details_from env userId method targetMonth user i tenants !! k
    = Some (detail_at env userId method targetMonth user (i + k) t).
Proof.
  induction tenants as [| t' rest IH]; intros i k t Hk; [done |].
  destruct k as [| k]; simpl in *.
  - simplify_eq. by rewrite Nat.add_0_r.
  - rewrite (IH (S i) k t Hk). do 2 f_equal. lia.
Qed.

Hypothesis catch_log_returns :
  ∀ i doc, e_ReminderLog_create env i true doc = Returns tt.

Lemma loop_result_isolated (user : User.t) (tenants : list Tenant.t) :
  ∀ i c j,
    ∃ j' c',
      loop_result env userId method targetMonth user i tenants c j
      = (j', c', None) ∧
      Job.details j'
      = Job.details j ++ details_from env userId method targetMonth user i tenants ∧
      Job.sent j'
      = (Job.sent j + count_status StatusSent
           (details_from env userId method targetMonth user i tenants))%Z ∧
      Job.failed j'
      = (Job.failed j + count_status StatusFailed
           (details_from env userId method targetMonth user i tenants))%Z ∧
      Job.status j' = Job.status j ∧ Job.error j' = Job.error j ∧
      Job.total j' = Job.total j.
Proof.
  induction tenants as [| t rest IH]; intros i c j.
  - exists j, c. simpl. rewrite app_nil_r. unfold count_status. simpl.
    repeat split; lia.
  - cbn [loop_result details_from]. unfold verdict, detail_at.
    destruct (attempt env userId method targetMonth user i t) as [r | m].
    + edestruct (IH (S i)) as (j' & c' & -> & Hd & Hs & Hf & Hst & He & Ht).
      exists j', c'. split; [done |].
      rewrite Hd, Hs, Hf, Hst, He, Ht. simpl. rewrite <- app_assoc.
      unfold count_status, detail_of, result_status. simpl.
      destruct (SendResult.success r); simpl; repeat split; lia.
    + rewrite catch_log_returns.
      edestruct (IH (S i)) as (j' & c' & -> & Hd & Hs & Hf & Hst & He & Ht).
      exists j', c'. split; [done |].
      rewrite Hd, Hs, Hf, Hst, He, Ht. simpl. rewrite <- app_assoc.
      unfold count_status. simpl. repeat split; lia.
Qed.

End Isolation.

Lemma fresh_running (jobs : gmap string Job.t) (now : Z) (jobId : string)
    (total : Z) :
  (0 ≤ total)%Z →
  running jobId (fresh_world jobs now jobId total)
    (createReminderJob jobs now jobId total).2.
Proof.
  intros Htotal.
  assert (Hj : w_jobs (fresh_world jobs now jobId total) !! jobId
               = Some (createReminderJob jobs now jobId total).2)
    by apply lookup_insert_eq.
  split; [| done].
  unfold Inv, history. simpl. rewrite lookup_insert_eq.
  split; [| by split].
  apply history_ok_singleton. split; simpl; try lia; done.
Qed.

(** When the reminder-log write of the [catch] block never raises, no
    failure inside the [try] block stops the loop: the job completes with
    one detail per eligible tenant, in order. *)
Lemma dispatch_isolated (env : Env) (jobs : gmap string Job.t) (now : Z)
    (jobId : string) (total : Z) (userId : string) (tenantIds : list string)
    (method targetMonth : string) (user : User.t) (tenants : list Tenant.t) :
  rely env jobId → (0 ≤ total)%Z →
  resolve env userId tenantIds method = Returns (user, tenants) →
  (∀ i doc, e_ReminderLog_create env i true doc = Returns tt) →
  ∃ j,
    w_jobs (dispatch env jobId userId tenantIds method targetMonth
              (fresh_world jobs now jobId total)) !! jobId = Some j ∧
    Job.status j = Completed ∧ Job.error j = None ∧
    Job.details j = details_from env userId method targetMonth user 0 tenants ∧
    Job.sent j = count_status StatusSent (Job.details j) ∧
    Job.failed j = count_status StatusFailed (Job.details j) ∧
    Job.total j = Z.of_nat (length tenants).
Proof.
  intros Hrely Htotal Hres Hcatch.
  destruct (run_spec env jobId userId tenantIds method targetMonth Hrely
              _ _ (fresh_running jobs now jobId total Htotal) eq_refl eq_refl)
    as (w' & t & Hrun & _ & Hj).
  unfold dispatch. rewrite Hrun. simpl. rewrite Hj.
  unfold outcome. rewrite Hres.
  destruct (loop_result_isolated env userId method targetMonth Hcatch user
              tenants 0 0
              (set_total (createReminderJob jobs now jobId total).2
                 (length tenants)))
    as (j' & c' & -> & Hd & Hs & Hf & Hst & He & Ht).
  eexists. split; [reflexivity |]. simpl.
  rewrite Hd, Hs, Hf, He, Ht. simpl. repeat split; lia.
Qed.

(** A job whose resolution step fails goes to [failed] directly, with the
    message of the failure and no detail. *)
Lemma unresolved_job_fails (env : Env) (jobs : gmap string Job.t) (now : Z)
    (jobId : string) (total : Z) (userId : string) (tenantIds : list string)
    (method targetMonth : string) (m : string) :
  rely env jobId → (0 ≤ total)%Z →
  resolve env userId tenantIds method = Raises m →
  ∃ j t,
    w_jobs (dispatch env jobId userId tenantIds method targetMonth
              (fresh_world jobs now jobId total)) !! jobId = Some j ∧
    Job.status j = Failed ∧ Job.error j = Some m ∧
    Job.completedAt j = Some t ∧ Job.details j = [] ∧
    Job.sent j = 0%Z ∧ Job.failed j = 0%Z.
Proof.
  intros Hrely Htotal Hres.
  destruct (run_spec env jobId userId tenantIds method targetMonth Hrely
              _ _ (fresh_running jobs now jobId total Htotal) eq_refl eq_refl)
    as (w' & t & Hrun & _ & Hj).
  unfold dispatch. rewrite Hrun. simpl. rewrite Hj.
  unfold outcome. rewrite Hres. eexists _, t. by repeat split.
Qed.

(** When the reminder-log write of the [catch] block never raises, a job
    with a detail has no top-level error. *)
Lemma error_needs_escaped_catch (env : Env) (jobs : gmap string Job.t)
    (now : Z) (jobId : string) (total : Z) (userId : string)
    (tenantIds : list string) (method targetMonth : string) :
  rely env jobId → (0 ≤ total)%Z →
  (∀ i doc, e_ReminderLog_create env i true doc = Returns tt) →
  ∃ j,
    w_jobs (dispatch env jobId userId tenantIds method targetMonth
              (fresh_world jobs now jobId total)) !! jobId = Some j ∧
    (Job.details j ≠ [] → Job.error j = None).
Proof.
  intros Hrely Htotal Hcatch.
  destruct (resolve env userId tenantIds method) as [[user tenants] | m]
    eqn:Hres.
  - destruct (dispatch_isolated env jobs now jobId total userId tenantIds
                method targetMonth user tenants Hrely Htotal Hres Hcatch)
      as (j & Hj & _ & He & _).
    eauto.
  - destruct (unresolved_job_fails env jobs now jobId total userId tenantIds
                method targetMonth m Hrely Htotal Hres)
      as (j & t & Hj & _ & _ & _ & Hd & _).
    exists j. split; [done |]. by rewrite Hd.
Qed.

(** ** A run only appends to the history *)

Lemma grows_ret {A} (a : A) : grows (mret a).
Proof. by intros w. Qed.

Lemma grows_throw {A} (m : string) : grows (@throw A m).
Proof. by intros w. Qed.

Lemma grows_bind {A B} (m : M A) (k : A → M B) :
  grows m → (∀ a, grows (k a)) → grows (m ≫= k).
Proof.
  intros Hm Hk w. unfold mbind, M_bind, bind.
  specialize (Hm w). destruct (m w) as [w' [a | e]]; simpl in *; [| done].
  by etrans; [| apply Hk].
Qed.

Lemma grows_try_catch {A} (m : M A) (h : string → M A) :
  grows m → (∀ e, grows (h e)) → grows (try_catch m h).
Proof.
  intros Hm Hh w. unfold try_catch.
  specialize (Hm w). destruct (m w) as [w' [a | e]]; simpl in *; [done |].
  by etrans; [| apply Hh].
Qed.

Lemma grows_await {A} (env : Env) (ev : Event) (o : Outcome A) :
  grows (await env ev o).
Proof. intros w. simpl. by apply prefix_app_r. Qed.

Lemma grows_update (jobId : string) (u : Update.t) : grows (update jobId u).
Proof. intros w. simpl. by apply prefix_app_r. Qed.

Lemma grows_newDate (env : Env) : grows (newDate env).
Proof. by intros w. Qed.

Lemma grows_jobs_get (jobId : string) : grows (jobs_get jobId).
Proof. by intros w. Qed.

Lemma grows_read_job (prop : string) (job : option Job.t) :
  grows (read_job prop job).
Proof. destruct job; [apply grows_ret | apply grows_throw]. Qed.

Lemma grows_get_totalCost : grows get_totalCost.
Proof. by intros w. Qed.

Lemma grows_set_totalCost (c : Z) : grows (set_totalCost c).
Proof. by intros w. Qed.

Ltac grow :=
  repeat first
    [ progress intros
    | apply grows_bind | apply grows_try_catch | apply grows_ret
    | apply grows_throw | apply grows_await | apply grows_update
    | apply grows_newDate | apply grows_jobs_get | apply grows_read_job
    | apply grows_get_totalCost | apply grows_set_totalCost
    | match goal with
      | |- grows (match ?x with _ => _ end) => destruct x
      end ].

Lemma grows_for_each_tenant (env : Env) (jobId userId method targetMonth : string)
    (user : User.t) (tenants : list Tenant.t) :
  ∀ i, grows (for_each_tenant env jobId userId method targetMonth user i tenants).
Proof.
  induction tenants as [| t rest IH]; intros i; simpl; [apply grows_ret |].
  apply grows_bind; [| done].
  unfold process_tenant, recover. grow.
Qed.

Lemma grows_processRemindersInBackground (env : Env) (jobId userId : string)
    (tenantIds : list string) (method targetMonth : string) :
  grows (processRemindersInBackground env jobId userId tenantIds method
           targetMonth).
Proof.
  unfold processRemindersInBackground, User_findById, Tenant_find, fail_job,
    EventLog_logEvent.
  grow. apply grows_for_each_tenant.
Qed.

Lemma history_first (env : Env) (jobs : gmap string Job.t) (now : Z)
    (jobId : string) (total : Z) (userId : string) (tenantIds : list string)
    (method targetMonth : string) :
  history jobId
    (dispatch env jobId userId tenantIds method targetMonth
       (fresh_world jobs now jobId total)) !! 0%nat
  = Some (Some (createReminderJob jobs now jobId total).2).
Proof.
  destruct (grows_processRemindersInBackground env jobId userId tenantIds
              method targetMonth (fresh_world jobs now jobId total))
    as [l Hl].
  unfold dispatch, history. rewrite Hl. simpl. by rewrite lookup_insert_eq.
Qed.

Lemma dispatch_spec (env : Env) (jobs : gmap string Job.t) (now : Z)
    (jobId : string) (total : Z) (userId : string) (tenantIds : list string)
    (method targetMonth : string) :
  rely env jobId → (0 ≤ total)%Z →
  let w0 := fresh_world jobs now jobId total in
  let w := dispatch env jobId userId tenantIds method targetMonth w0 in
  ∃ t,
    (processRemindersInBackground env jobId userId tenantIds method
       targetMonth w0).2 = Returns tt ∧
    Inv jobId w ∧
    w_jobs w !! jobId
    = Some (finish t (outcome env userId tenantIds method targetMonth
                        (createReminderJob jobs now jobId total).2)).
Proof.
  intros Hrely Htotal w0 w.
  destruct (run_spec env jobId userId tenantIds method targetMonth Hrely
              _ _ (fresh_running jobs now jobId total Htotal) eq_refl eq_refl)
    as (w' & t & Hrun & HI & Hj).
  subst w w0. unfold dispatch. rewrite Hrun. simpl. eauto.
Qed.

(** C2. At every observation of a job, from its creation on, through the
    correction of [total] and every per-tenant update, to the end of the
    run: [0 <= sent + failed <= total] and [details.length = sent + failed]. *)
Theorem C2_counters_bounded_and_details_counted (env : Env)
    (jobs : gmap string Job.t) (now : Z) (jobId : string) (total : Z)
    (userId : string) (tenantIds : list string) (method targetMonth : string) :
  rely env jobId → (0 ≤ total)%Z →
  let h := history jobId
             (dispatch env jobId userId tenantIds method targetMonth
                (fresh_world jobs now jobId total)) in
  h !! 0%nat = Some (Some (createReminderJob jobs now jobId total).2) ∧
  ∀ o, o ∈ h →
    ∃ j, o = Some j ∧
      (0 ≤ Job.sent j + Job.failed j ≤ Job.total j)%Z ∧
      Z.of_nat (length (Job.details j)) = (Job.sent j + Job.failed j)%Z.
Proof.
  intros Hrely Htotal h. split; [apply history_first |].
  destruct (dispatch_spec env jobs now jobId total userId tenantIds method
              targetMonth Hrely Htotal) as (t & _ & ([Hall _] & _) & _).
  intros o Ho. apply list_elem_of_lookup in Ho as [i Hi].
  destruct (Hall i o Hi) as (j & -> & [? ? ? ? ?]).
  exists j. split; [done |]. split; [lia | done].
Qed.

(** C5. At every observation of a job [completedAt] is set exactly when
    [status] is terminal, the run returns whatever the collaborators do, and
    it leaves the job terminal with [completedAt] set. *)
Theorem C5_completedAt_iff_terminal (env : Env) (jobs : gmap string Job.t)
    (now : Z) (jobId : string) (total : Z) (userId : string)
    (tenantIds : list string) (method targetMonth : string) :
  rely env jobId → (0 ≤ total)%Z →
  let w0 := fresh_world jobs now jobId total in
  let w := dispatch env jobId userId tenantIds method targetMonth w0 in
  (∀ o, o ∈ history jobId w →
     ∃ j, o = Some j ∧
       (Job.completedAt j ≠ None ↔ terminal (Job.status j) = true)) ∧
  (processRemindersInBackground env jobId userId tenantIds method targetMonth
     w0).2 = Returns tt ∧
  last (history jobId w) = Some (w_jobs w !! jobId) ∧
  ∃ j, w_jobs w !! jobId = Some j ∧
    terminal (Job.status j) = true ∧ Job.completedAt j ≠ None.
Proof.
  intros Hrely Htotal w0 w.
  destruct (dispatch_spec env jobs now jobId total userId tenantIds method
              targetMonth Hrely Htotal) as (t & Hret & ([Hall _] & Hlast & _) & Hj).
  fold w0 in Hret. fold w0 w in Hall, Hlast, Hj.
  split; [| split; [done | split; [done |]]].
  - intros o Ho. apply list_elem_of_lookup in Ho as [i Hi].
    destruct (Hall i o Hi) as (j & -> & [? ? ? ? ?]). eauto.
  - eexists. split; [exact Hj |]. unfold finish.
    by destruct (outcome _ _ _ _ _ _).2.
Qed.

(** C6. Between two observations of a job the counters never decrease, and
    an observation that follows a terminal one is the same record; the sweep
    removes a record or leaves it as it is. *)
Theorem C6_counters_monotone_then_frozen (env : Env)
    (jobs : gmap string Job.t) (now : Z) (jobId : string) (total : Z)
    (userId : string) (tenantIds : list string) (method targetMonth : string) :
  rely env jobId → (0 ≤ total)%Z →
  let w := dispatch env jobId userId tenantIds method targetMonth
             (fresh_world jobs now jobId total) in
  (∀ i k a b,
     history jobId w !! i = Some (Some a) →
     history jobId w !! (i + k)%nat = Some (Some b) →
     (Job.sent a ≤ Job.sent b)%Z ∧ (Job.failed a ≤ Job.failed b)%Z ∧
     (terminal (Job.status a) = true → b = a)) ∧
  (∀ t j, cleanupOldJobs t (w_jobs w) !! jobId = Some j →
          w_jobs w !! jobId = Some j).
Proof.
  intros Hrely Htotal w.
  destruct (dispatch_spec env jobs now jobId total userId tenantIds method
              targetMonth Hrely Htotal) as (t & _ & ([_ Hchain] & _) & _).
  split.
  - intros i k a b Ha Hb. exact (Hchain i k a b Ha Hb).
  - intros t' j Hj. by apply cleanupOldJobs_lookup in Hj as [? _].
Qed.

Lemma filter_sublist {A} (f : A → bool) (l : list A) :
  List.filter f l `sublist_of` l.
Proof.
  induction l as [| x l IH]; simpl; [done |].
  destruct (f x); by constructor.
Qed.

Lemma count_status_total (ds : list Detail.t) :
  (count_status StatusSent ds + count_status StatusFailed ds)%Z
  = Z.of_nat (length ds).
Proof.
  unfold count_status. induction ds as [| d ds IH]; simpl; [done |].
  destruct (Detail.status d); simpl; lia.
Qed.

Lemma resolve_store_order (env : Env) (userId : string)
    (tenantIds : list string) (method : string) (user : User.t)
    (tenants : list Tenant.t) :
  resolve env userId tenantIds method = Returns (user, tenants) →
  ∃ docs,
    e_Tenant_collection env = Returns docs ∧ tenants `sublist_of` docs ∧
    Forall (λ t, Tenant._id t ∈ tenantIds) tenants.
Proof.
  unfold resolve, eligible.
  destruct (e_User_findById env userId) as [[user' |] | m]; [| done..].
  destruct (e_Tenant_collection env) as [docs | m]; [| done].
  simpl. destruct (bool_decide _); [done |]. intros Hres. simplify_eq.
  exists docs. split; [done |]. split.
  - destruct (String.eqb method "email");
      [etrans; [apply filter_sublist |] |]; apply filter_sublist.
  - assert (Hall : Forall (λ t, Tenant._id t ∈ tenantIds)
                     (List.filter (matches tenantIds userId) docs)).
    { apply Forall_forall. intros t Ht.
      apply list_elem_of_In, filter_In in Ht as [_ Ht]. unfold matches in Ht.
      apply andb_true_iff in Ht as [Ht _]. apply andb_true_iff in Ht as [Ht _].
      by apply bool_decide_eq_true in Ht. }
    destruct (String.eqb method "email"); [| done].
    eapply Forall_forall. intros t Ht.
    apply list_elem_of_In, filter_In in Ht as [Ht _].
    apply list_elem_of_In in Ht. by eapply Forall_forall in Hall.
Qed.

(** C1, amended.  When the user and the eligible tenants are resolved and
    the reminder-log write of the [catch] block does not raise, no failure
    raised in a tenant's [try] block ends the loop: the job completes, with
    no top-level error and one detail per eligible tenant, in the order in
    which the store returned the tenants (a sublist of the collection, each
    of them asked for; not the order of the ids of the request); a tenant
    for whom the channel step raises gets a [failed] detail with the raised
    message.  With three eligible tenants, the channel step raising for the
    second and succeeding for the other two, and the writes of the [try]
    block returning: three details, the second [failed] with the raised
    message, [sent = 2] and [failed = 1]. *)
Theorem C1_channel_failure_is_isolated (env : Env) (jobs : gmap string Job.t)
    (now : Z) (jobId : string) (total : Z) (userId : string)
    (tenantIds : list string) (method targetMonth : string) (user : User.t)
    (tenants : list Tenant.t) :
  rely env jobId → (0 ≤ total)%Z →
  resolve env userId tenantIds method = Returns (user, tenants) →
  (∀ i doc, e_ReminderLog_create env i true doc = Returns tt) →
  ∃ j,
    w_jobs (dispatch env jobId userId tenantIds method targetMonth
              (fresh_world jobs now jobId total)) !! jobId = Some j ∧
    Job.status j = Completed ∧ Job.error j = None ∧
    Detail.tenantId <$> Job.details j = Tenant._id <$> tenants ∧
    (∃ docs,
       e_Tenant_collection env = Returns docs ∧ tenants `sublist_of` docs ∧
       Forall (λ t, Tenant._id t ∈ tenantIds) tenants) ∧
    Job.total j = Z.of_nat (length tenants) ∧
    (Job.sent j + Job.failed j = Job.total j)%Z ∧
    (∀ k t message,
       tenants !! k = Some t →
       send_outcome env method targetMonth user k t = Raises message →
       ∃ d, Job.details j !! k = Some d ∧
            Detail.tenantId d = Tenant._id t ∧
            Detail.status d = StatusFailed ∧ Detail.error d = Some message) ∧
    (∀ t1 t2 t3 r1 r3 message,
       tenants = [t1; t2; t3] →
       send_outcome env method targetMonth user 0 t1 = Returns r1 →
       SendResult.success r1 = true →
       send_outcome env method targetMonth user 1 t2 = Raises message →
       send_outcome env method targetMonth user 2 t3 = Returns r3 →
       SendResult.success r3 = true →
       (∀ i doc, e_ReminderLog_create env i false doc = Returns tt) →
       (∀ i t, e_tenant_save env i t = Returns tt) →
       ∃ d1 d2 d3,
         Job.details j = [d1; d2; d3] ∧
         Detail.tenantId d1 = Tenant._id t1 ∧
         Detail.tenantId d2 = Tenant._id t2 ∧
         Detail.tenantId d3 = Tenant._id t3 ∧
         Detail.status d1 = StatusSent ∧ Detail.status d3 = StatusSent ∧
         Detail.status d2 = StatusFailed ∧ Detail.error d2 = Some message ∧
         Job.sent j = 2%Z ∧ Job.failed j = 1%Z ∧ Job.total j = 3%Z).
Proof.
  intros Hrely Htotal Hres Hcatch.
  destruct (dispatch_isolated env jobs now jobId total userId tenantIds method
              targetMonth user tenants Hrely Htotal Hres Hcatch)
    as (j & Hj & Hst & He & Hd & Hsent & Hfailed & Htot).
  assert (Hids : Detail.tenantId <$> Job.details j = Tenant._id <$> tenants).
  { rewrite Hd. apply details_from_ids. }
  exists j. split; [exact Hj |]. split; [exact Hst |]. split; [exact He |].
  split; [exact Hids |].
  split; [exact (resolve_store_order _ _ _ _ _ _ Hres) |].
  split; [exact Htot |]. split.
  { rewrite Hsent, Hfailed, count_status_total, Htot.
    by rewrite <- (length_fmap Detail.tenantId), Hids, length_fmap. }
  split.
  - intros k t message Hk Hraise. eexists. split.
    + rewrite Hd. rewrite (details_from_lookup _ _ _ _ _ _ 0 k t Hk). done.
    + unfold detail_at, attempt. simpl. by rewrite Hraise.
  - intros t1 t2 t3 r1 r3 message -> Hs1 Hok1 Hs2 Hs3 Hok3 Hlog Hsave.
    assert (Hd' : Job.details j
                  = [detail_of t1 r1; failed_detail t2 message;
                     detail_of t3 r3]).
    { rewrite Hd. simpl. unfold detail_at, attempt.
      by rewrite Hs1, Hs2, Hs3, !Hlog, Hok1, Hok3, !Hsave. }
    exists (detail_of t1 r1), (failed_detail t2 message), (detail_of t3 r3).
    rewrite Hsent, Hfailed, Hd'. unfold count_status, detail_of, result_status.
    simpl. rewrite Hok1, Hok3, Htot. simpl. repeat split; done.
Qed.

Lemma for_each_tenant_event (env : Env) (o : Outcome unit)
    (jobId userId method targetMonth : string) (user : User.t)
    (tenants : list Tenant.t) :
  ∀ i,
    for_each_tenant (with_EventLog_create o env) jobId userId method
      targetMonth user i tenants
    = for_each_tenant env jobId userId method targetMonth user i tenants.
Proof.
  induction tenants as [| t rest IH]; intros i; [reflexivity |].
  simpl. rewrite IH. reflexivity.
Qed.

Lemma bind_ext {A B} (m1 m2 : M A) (k1 k2 : A → M B) (w : World) :
  m1 w = m2 w → (∀ a w', k1 a w' = k2 a w') → bind m1 k1 w = bind m2 k2 w.
Proof.
  intros Hm Hk. unfold bind. rewrite Hm.
  destruct (m2 w) as [w' [a | e]]; [apply Hk | done].
Qed.

Lemma logEvent_swallows (env : Env) (o : Outcome unit)
    (userId eventType method : string) (sent failed totalCost : Z)
    (w : World) :
  EventLog_logEvent (with_EventLog_create o env) userId eventType method sent
    failed totalCost w
  = (tick env (EvEventLogCreate userId eventType method sent failed totalCost)
       w, Returns tt).
Proof. unfold EventLog_logEvent. destruct o as [[] | m]; reflexivity. Qed.

Lemma event_write_swallowed (env : Env) (o : Outcome unit)
    (jobId userId : string) (tenantIds : list string)
    (method targetMonth : string) (w : World) :
  processRemindersInBackground (with_EventLog_create o env) jobId userId
    tenantIds method targetMonth w
  = processRemindersInBackground (with_EventLog_create (Returns tt) env) jobId
      userId tenantIds method targetMonth w.
Proof.
  unfold processRemindersInBackground, try_catch, mbind, M_bind.
  match goal with
  | |- (match ?a with _ => _ end) = (match ?b with _ => _ end) =>
      assert (Heq : a = b); [| by rewrite Heq]
  end.
  apply bind_ext; [done |]. intros [user |] w1; [| done].
  apply bind_ext; [done |]. intros tenants w2.
  destruct (bool_decide (tenants = [])); [done |].
  apply bind_ext; [done |]. intros _ w3.
  apply bind_ext; [done |]. intros _ w4.
  rewrite !for_each_tenant_event.
  apply bind_ext; [done |]. intros _ w5.
  apply bind_ext; [done |]. intros job w6.
  apply bind_ext; [done |]. intros job' w7.
  apply bind_ext; [done |]. intros c w8.
  apply bind_ext; [by rewrite !logEvent_swallows | done].
Qed.

(** C3, as amended.  A failure of the summary event write is swallowed
    inside [EventLog.logEvent]: the run is the same whatever that write
    does.  When the reminder-log write of the [catch] block goes through, a
    failure of the reminder-log write of the [try] block does not stop the
    loop and leaves the job's status and top-level error alone, but the
    tenant is recorded as failed with the message of the write. *)
Theorem C3_audit_failure_recorded_per_tenant (env : Env)
    (jobs : gmap string Job.t) (now : Z) (jobId : string) (total : Z)
    (userId : string) (tenantIds : list string) (method targetMonth : string)
    (user : User.t) (tenants : list Tenant.t) :
  rely env jobId → (0 ≤ total)%Z →
  resolve env userId tenantIds method = Returns (user, tenants) →
  (∀ i doc, e_ReminderLog_create env i true doc = Returns tt) →
  (∀ o o' w,
     processRemindersInBackground (with_EventLog_create o env) jobId userId
       tenantIds method targetMonth w
     = processRemindersInBackground (with_EventLog_create o' env) jobId userId
         tenantIds method targetMonth w) ∧
  ∃ j,
    w_jobs (dispatch env jobId userId tenantIds method targetMonth
              (fresh_world jobs now jobId total)) !! jobId = Some j ∧
    Job.status j = Completed ∧ Job.error j = None ∧
    Detail.tenantId <$> Job.details j = Tenant._id <$> tenants ∧
    ∀ i t r m,
      tenants !! i = Some t →
      send_outcome env method targetMonth user i t = Returns r →
      e_ReminderLog_create env i false (log_of userId method t r) = Raises m →
      Job.details j !! i = Some (failed_detail t m).
Proof.
  intros Hrely Htotal Hres Hcatch. split.
  - intros o o' w.
    by rewrite (event_write_swallowed env o), (event_write_swallowed env o').
  - destruct (dispatch_isolated env jobs now jobId total userId tenantIds
                method targetMonth user tenants Hrely Htotal Hres Hcatch)
      as (j & Hj & Hst & He & Hd & _).
    exists j. rewrite Hd. repeat split; try done.
    + apply details_from_ids.
    + intros i t r m Ht Hsend Hlog.
      rewrite (details_from_lookup env userId method targetMonth user tenants
                 0 i t Ht).
      unfold detail_at, attempt. simpl. by rewrite Hsend, Hlog.
Qed.

Lemma scripted_rely (docs : list Tenant.t) (sms : nat → Outcome SendResult.t)
    (log : nat → bool → Outcome unit) (jobId : string) :
  rely (scripted docs sms log) jobId.
Proof. apply cleanup_rely. intros k jobs. by eexists. Qed.

(** C3, as stated, fails: with one tenant whose SMS is sent, a reminder-log
    write that raises in the [try] block turns [sent = 1] into
    [failed = 1] and puts the message of the write in the detail. *)
Lemma C3_counterexample : ¬ audit_failures_swallowed.
Proof.
  intros H.
  specialize (H (scripted [alice] (λ _, sms_sent) log_fails_once) ∅ 900%Z
                "job-1" 1%Z "landlord-1" ["t-1"] "sms" "2025-11"
                (scripted_rely _ _ _ _)).
  specialize (H ltac:(lia)). vm_compute in H. discriminate H.
Qed.

(** C1, as stated, fails: the ids of the request are [t-3], [t-2], [t-1],
    the store returns the three tenants as [t-1], [t-2], [t-3], the SMS
    sender raises for the second and every other collaborator works.  The
    job completes with [sent = 2] and [failed = 1], the second detail
    failed, but the details are in the order of the store, [t-1], [t-2],
    [t-3], not in that of the request. *)
Lemma C1_counterexample : ¬ failure_isolated_in_request_order.
Proof.
  intros H.
  destruct (H (scripted [alice; bob; carol] sms_second_raises healthy_log) ∅
              900%Z "job-1" 3%Z "landlord-1" ["t-3"; "t-2"; "t-1"] "sms"
              "2025-11" landlord alice bob carol
              (SendResult.mk true (Some 50%Z) None)
              (SendResult.mk true (Some 50%Z) None) "gateway timeout"
              (scripted_rely _ _ _ _))
    as (j & d1 & d2 & d3 & Hj & _ & _ & Hsub & _);
    [lia | reflexivity..|].
  vm_compute in Hj. simplify_eq. simpl in Hsub.
  repeat match goal with
         | H : _ `sublist_of` _ |- _ => inversion H; clear H; simplify_eq
         end.
Qed.

(** C4 fails on the code: [method = 'email'], the user exists and the
    one tenant asked for is owned and not deleted but has no email address.
    The emptiness test is made before the email filter, so the job completes
    with [total = 0], no error and no detail; the entry point, on the same
    data, rejects the request. *)
Theorem C4_no_email_recipients_job_completes :
  let env := scripted [alice] (λ _, sms_sent) healthy_log in
  let w := dispatch env "job-1" "landlord-1" ["t-1"] "email" "2025-11"
             (fresh_world ∅ 900 "job-1" 1) in
  eligible "email"
    (List.filter (matches ["t-1"] "landlord-1") [alice]) = [] ∧
  w_jobs w !! "job-1"
  = Some (Job.mk "job-1" Completed 0 0 0 [] 0 900 (Some 1003%Z) None) ∧
  (ReminderController.sendReminders env
     (Request.mk (a_requester "landlord-1") "job-1" (Some ["t-1"])
        (Some "email") None) (initial_world ∅)).2
  = Returns
      ({| code := 400;
          body := BodyError
                    "None of the selected tenants have email addresses" |},
       None).
Proof. vm_compute. repeat split. Qed.

(** C7 fails on the code: two tenants by SMS; the first is processed, then
    the database is lost, so for the second both reminder-log writes raise
    and the error reaches the outermost handler.  The job ends with a
    detail and a top-level error. *)
Theorem C7_error_set_after_a_tenant_was_processed :
  let env := scripted [alice; bob] (λ _, sms_sent) log_lost_after_first in
  let w := dispatch env "job-1" "landlord-1" ["t-1"; "t-2"] "sms" "2025-11"
             (fresh_world ∅ 900 "job-1" 2) in
  w_jobs w !! "job-1"
  = Some (Job.mk "job-1" Failed 2 1 0
            [Detail.mk "t-1" "Alice" StatusSent 50 None] 50 900
            (Some 1008%Z) (Some "db down")).
Proof. vm_compute. reflexivity. Qed.

(** C8, as stated, fails: creating a job under the id of a finished job
    replaces the record. *)
Lemma C8_counterexample : ¬ create_keeps_existing.
Proof.
  intros H.
  specialize (H {["job-1" := Job.mk "job-1" Completed 1 1 0
                               [Detail.mk "t-1" "Alice" StatusSent 50 None]
                               50 100 (Some 200%Z) None]}
                900%Z "job-1" 5%Z _ (lookup_singleton_eq _ _)).
  vm_compute in H. discriminate H.
Qed.

(** C8, as amended.  [createReminderJob] never fails; whatever the registry
    holds under [jobId], it then holds a fresh record there, which is also
    the value returned, and every other id is untouched. *)
Theorem C8_create_replaces_record (jobs : gmap string Job.t) (now : Z)
    (jobId : string) (total : Z) :
  let fresh := Job.mk jobId Processing total 0 0 [] 0 now None None in
  let r := createReminderJob jobs now jobId total in
  r.1 !! jobId = Some fresh ∧ r.2 = fresh ∧
  ∀ other, other ≠ jobId → r.1 !! other = jobs !! other.
Proof.
  intros fresh r. split; [apply lookup_insert_eq | split; [done |]].
  intros other Hne. by apply lookup_insert_ne.
Qed.

(** An instance: creating ['job-2'] leaves a finished ['job-1'] as it is. *)
Lemma C8_witness :
  let r := createReminderJob
             {["job-1" := Job.mk "job-1" Completed 1 1 0 [] 50 100
                            (Some 200%Z) None]} 900 "job-2" 5 in
  r.1 !! "job-1"
  = Some (Job.mk "job-1" Completed 1 1 0 [] 50 100 (Some 200%Z) None).
Proof.
  intros r.
  destruct (C8_create_replaces_record
              {["job-1" := Job.mk "job-1" Completed 1 1 0 [] 50 100
                             (Some 200%Z) None]} 900 "job-2" 5)
    as (_ & _ & Hother).
  unfold r. rewrite (Hother "job-1"); [reflexivity | discriminate].
Defined.

Lemma dispatch_never_delays (env : Env) (jobs : gmap string Job.t) (now : Z)
    (jobId : string) (total : Z) (userId : string) (tenantIds : list string)
    (method targetMonth : string) :
  rely env jobId → (0 ≤ total)%Z →
  Forall (λ ev, is_delay ev = false)
    (w_events (dispatch env jobId userId tenantIds method targetMonth
                 (fresh_world jobs now jobId total))).
Proof.
  intros Hrely Htotal.
  by destruct (dispatch_spec env jobs now jobId total userId tenantIds method
                 targetMonth Hrely Htotal) as (t & _ & (_ & _ & ?) & _).
Qed.

Lemma sendBulkSMS_separated (env : Env) (messages : list (string * string)) :
  ∀ i results w,
    ∃ evs,
      w_events (sendBulkSMS_from env i messages results w).1
      = w_events w ++ evs ∧
      sends_separated false evs = true.
Proof.
  induction messages as [| [to message] rest IH]; intros i results w.
  - exists []. simpl. by rewrite app_nil_r.
  - simpl. unfold mbind, M_bind, bind, await.
    destruct (e_sendSMS env i to message) as [r | e].
    + destruct (IH (S i) (results ++ [r])
                  (tick env (EvDelay 100) (tick env (EvSendSMS to message) w)))
        as (evs & Hev & Hsep).
      exists (EvSendSMS to message :: EvDelay 100 :: evs).
      rewrite Hev. simpl. by rewrite <- !app_assoc.
    + by exists [EvSendSMS to message].
Qed.

(** C9 fails on the code: two tenants by SMS, every collaborator working.
    The loop makes its two sends with no delay between them (a run makes no
    delay at all), where the bulk helper of the SMS service, on the same two
    messages, awaits its 100 ms timer after each send. *)
Theorem C9_consecutive_sends_without_delay :
  let env := scripted [alice; bob] (λ _, sms_sent) healthy_log in
  let w := dispatch env "job-1" "landlord-1" ["t-1"; "t-2"] "sms" "2025-11"
             (fresh_world ∅ 900 "job-1" 2) in
  List.filter (λ ev, is_send ev || is_delay ev) (w_events w)
  = [EvSendSMS "+256700000001" "Hello Alice";
     EvSendSMS "+256700000001" "Hello Bob"] ∧
  sends_separated false (w_events w) = false ∧
  List.filter (λ ev, is_send ev || is_delay ev)
    (w_events (sendBulkSMS env
                 [("+256700000001", "Hello Alice");
                  ("+256700000001", "Hello Bob")] (initial_world ∅)).1)
  = [EvSendSMS "+256700000001" "Hello Alice"; EvDelay 100;
     EvSendSMS "+256700000001" "Hello Bob"; EvDelay 100].
Proof. vm_compute. repeat split. Qed.

(** The percentage is the one doubles give: [29 / 200 * 100] is
    [14.499999999999998] and rounds to 14, [1 / 8 * 100] is [12.5] and
    rounds to 13. *)
Example progress_29_of_200 :
  progress (Job.mk "job-1" Processing 200 20 9 [] 0 0 None None) = Some 14%Z.
Proof. vm_compute. reflexivity. Qed.

Example progress_1_of_8 :
  progress (Job.mk "job-1" Processing 8 1 0 [] 0 0 None None) = Some 13%Z.
Proof. vm_compute. reflexivity. Qed.

Example progress_of_empty_job :
  progress (Job.mk "job-1" Completed 0 0 0 [] 0 0 (Some 1%Z) None) = Some 0%Z.
Proof. reflexivity. Qed.

(** C10. The two job queries read [req.params.jobId] only: for a job in the
    registry, the status and the details responses, with the tenants' names
    and error messages, are the same for any two requesting users. *)
Theorem C10_job_queries_ignore_the_requester (jobs : gmap string Job.t)
    (jobId : string) (job : Job.t) (u1 u2 : ReqUser.t)
    (tenantIds1 tenantIds2 : option (list string))
    (method1 method2 month1 month2 : option string) :
  let registry := <[jobId := job]> jobs in
  let req1 := Request.mk u1 jobId tenantIds1 method1 month1 in
  let req2 := Request.mk u2 jobId tenantIds2 method2 month2 in
  ReminderController.getJobStatus registry req1
  = ReminderController.getJobStatus registry req2 ∧
  ReminderController.getJobDetails registry req1
  = ReminderController.getJobDetails registry req2 ∧
  ReminderController.getJobDetails registry req1
  = {| code := 200;
       body := BodyJob
         (JobView.mk (Job.id job) (Job.status job) (Job.total job)
            (Job.sent job) (Job.failed job) (Job.totalCost job)
            (Some (Job.details job)) (Job.startedAt job)
            (Job.completedAt job) (progress job)) |}.
Proof.
  intros registry req1 req2.
  unfold ReminderController.getJobStatus, ReminderController.getJobDetails,
    getJobStatusFromService, getJobStatus.
  subst registry req1 req2. simpl. by rewrite lookup_insert_eq.
Qed.

(** Instances on scripted runs: three tenants by SMS where the sender raises
    for the second, and two tenants where the database is lost after the
    first. *)
Lemma C2_witness :
  let env := scripted [alice; bob; carol] sms_second_raises healthy_log in
  rely env "job-1" ∧ (0 ≤ 3)%Z ∧
  let h := history "job-1"
             (dispatch env "job-1" "landlord-1" ["t-1"; "t-2"; "t-3"] "sms"
                "2025-11" (fresh_world ∅ 900 "job-1" 3)) in
  h !! 0%nat = Some (Some (createReminderJob ∅ 900 "job-1" 3).2) ∧
  ∀ o, o ∈ h →
    ∃ j, o = Some j ∧
      (0 ≤ Job.sent j + Job.failed j ≤ Job.total j)%Z ∧
      Z.of_nat (length (Job.details j)) = (Job.sent j + Job.failed j)%Z.
Proof.
  intros env. split; [apply scripted_rely | split; [lia |]].
  apply (C2_counters_bounded_and_details_counted env ∅ 900 "job-1" 3
           "landlord-1" ["t-1"; "t-2"; "t-3"] "sms" "2025-11");
    [apply scripted_rely | lia].
Defined.

Lemma C5_witness :
  let env := scripted [alice; bob] (λ _, sms_sent) log_lost_after_first in
  rely env "job-1" ∧ (0 ≤ 2)%Z ∧
  let w := dispatch env "job-1" "landlord-1" ["t-1"; "t-2"] "sms" "2025-11"
             (fresh_world ∅ 900 "job-1" 2) in
  ∃ j, w_jobs w !! "job-1" = Some j ∧
    terminal (Job.status j) = true ∧ Job.completedAt j ≠ None.
Proof.
  intros env. split; [apply scripted_rely | split; [lia |]].
  apply (C5_completedAt_iff_terminal env ∅ 900 "job-1" 2 "landlord-1"
           ["t-1"; "t-2"] "sms" "2025-11");
    [apply scripted_rely | lia].
Defined.

Lemma C6_witness :
  let env := scripted [alice; bob; carol] sms_second_raises healthy_log in
  rely env "job-1" ∧ (0 ≤ 3)%Z ∧
  let w := dispatch env "job-1" "landlord-1" ["t-1"; "t-2"; "t-3"] "sms"
             "2025-11" (fresh_world ∅ 900 "job-1" 3) in
  ∀ i k a b,
    history "job-1" w !! i = Some (Some a) →
    history "job-1" w !! (i + k)%nat = Some (Some b) →
    (Job.sent a ≤ Job.sent b)%Z ∧ (Job.failed a ≤ Job.failed b)%Z ∧
    (terminal (Job.status a) = true → b = a).
Proof.
  intros env. split; [apply scripted_rely | split; [lia |]].
  apply (C6_counters_monotone_then_frozen env ∅ 900 "job-1" 3 "landlord-1"
           ["t-1"; "t-2"; "t-3"] "sms" "2025-11");
    [apply scripted_rely | lia].
Defined.

Lemma C1_witness :
  let env := scripted [alice; bob; carol] sms_second_raises healthy_log in
  ∃ j d1 d2 d3,
    w_jobs (dispatch env "job-1" "landlord-1" ["t-3"; "t-2"; "t-1"] "sms"
              "2025-11" (fresh_world ∅ 900 "job-1" 3)) !! "job-1" = Some j ∧
    Job.status j = Completed ∧ Job.error j = None ∧
    Job.details j = [d1; d2; d3] ∧
    Detail.tenantId d1 = "t-1" ∧ Detail.tenantId d2 = "t-2" ∧
    Detail.tenantId d3 = "t-3" ∧
    Detail.status d1 = StatusSent ∧ Detail.status d3 = StatusSent ∧
    Detail.status d2 = StatusFailed ∧
    Detail.error d2 = Some "gateway timeout" ∧
    Job.sent j = 2%Z ∧ Job.failed j = 1%Z ∧ Job.total j = 3%Z.
Proof.
  intros env.
  destruct (C1_channel_failure_is_isolated env ∅ 900 "job-1" 3 "landlord-1"
              ["t-3"; "t-2"; "t-1"] "sms" "2025-11" landlord
              [alice; bob; carol])
    as (j & Hj & Hst & He & _ & _ & _ & _ & _ & Hthree);
    [apply scripted_rely | lia | reflexivity | reflexivity |].
  destruct (Hthree alice bob carol (SendResult.mk true (Some 50%Z) None)
              (SendResult.mk true (Some 50%Z) None) "gateway timeout")
    as (d1 & d2 & d3 & Hrest); try reflexivity.
  exists j, d1, d2, d3.
  split; [exact Hj | split; [exact Hst | split; [exact He | exact Hrest]]].
Defined.

(** An instance: the reminder-log write of the [try] block raises for the
    first of two tenants, whose SMS was sent. *)
Lemma C3_witness :
  let env := scripted [alice; bob] (λ _, sms_sent) log_fails_once in
  ∃ j,
    w_jobs (dispatch env "job-1" "landlord-1" ["t-1"; "t-2"] "sms" "2025-11"
              (fresh_world ∅ 900 "job-1" 2)) !! "job-1" = Some j ∧
    Job.status j = Completed ∧ Job.error j = None ∧
    Job.details j !! 0%nat = Some (failed_detail alice "db down").
Proof.
  intros env.
  destruct (C3_audit_failure_recorded_per_tenant env ∅ 900 "job-1" 2
              "landlord-1" ["t-1"; "t-2"] "sms" "2025-11" landlord
              [alice; bob])
    as (_ & j & Hj & Hst & He & _ & Hd);
    [apply scripted_rely | lia | reflexivity | |].
  - intros i doc. simpl. unfold log_fails_once. by destruct (decide (i = 0%nat)).
  - exists j. split; [exact Hj | split; [exact Hst | split; [exact He |]]].
    apply (Hd 0%nat alice (SendResult.mk true (Some 50%Z) None) "db down");
      reflexivity.
Defined.

(** * The registry, the services and the middleware *)

(** ** The registry *)

(** X1. The sweep never removes a job that is still processing or that
    finished within the last hour, and removes every job that finished more
    than an hour before. *)
Theorem X1_sweep_removes_exactly_the_expired (now : Z)
    (jobs : gmap string Job.t) (id : string) (j : Job.t) :
  jobs !! id = Some j →
  (Job.completedAt j = None → cleanupOldJobs now jobs !! id = Some j) ∧
  (∀ d, Job.completedAt j = Some d → (now - 3600000 ≤ d)%Z →
        cleanupOldJobs now jobs !! id = Some j) ∧
  (∀ d, Job.completedAt j = Some d → (d < now - 3600000)%Z →
        cleanupOldJobs now jobs !! id = None).
Proof.
  intros Hj. repeat split.
  - intros Hc. apply cleanupOldJobs_lookup. split; [done |].
    unfold expired. by rewrite Hc.
  - intros d Hc Hd. apply cleanupOldJobs_lookup. split; [done |].
    unfold expired. rewrite Hc. apply Z.ltb_ge. lia.
  - intros d Hc Hd.
    destruct (cleanupOldJobs now jobs !! id) as [j' |] eqn:Hl; [| done].
    apply cleanupOldJobs_lookup in Hl as [Hj' He]. simplify_eq.
    unfold expired in He. rewrite Hc in He. apply Z.ltb_ge in He. lia.
Qed.

Lemma expired_mono (t1 t2 : Z) (j : Job.t) :
  (t1 ≤ t2)%Z → expired t2 j = false → expired t1 j = false.
Proof.
  unfold expired. intros Ht. destruct (Job.completedAt j); [| done].
  rewrite !Z.ltb_ge. lia.
Qed.

(** X2. Sweeps compose: after a sweep, a sweep at the same or a later time
    leaves what that later sweep alone leaves; in particular a sweep
    repeated at the same time removes nothing more. *)
Theorem X2_sweeps_compose (t1 t2 : Z) (jobs : gmap string Job.t) :
  (t1 ≤ t2)%Z →
  cleanupOldJobs t2 (cleanupOldJobs t1 jobs) = cleanupOldJobs t2 jobs ∧
  cleanupOldJobs t1 (cleanupOldJobs t2 jobs) = cleanupOldJobs t2 jobs ∧
  cleanupOldJobs t1 (cleanupOldJobs t1 jobs) = cleanupOldJobs t1 jobs.
Proof.
  intros Ht.
  assert (Hkey : ∀ a b, (a ≤ b)%Z →
            cleanupOldJobs b (cleanupOldJobs a jobs) = cleanupOldJobs b jobs
            ∧ cleanupOldJobs a (cleanupOldJobs b jobs) = cleanupOldJobs b jobs).
  { intros a b Hab. split; apply map_eq; intros i; apply option_eq; intros j;
      rewrite !cleanupOldJobs_lookup.
    - split; [by intros [[? _] ?] |]. intros [? ?].
      eauto using expired_mono.
    - split; [by intros [[? ?] _] |]. intros [? ?].
      eauto using expired_mono. }
  destruct (Hkey t1 t2 Ht) as [H1 H2].
  destruct (Hkey t1 t1 ltac:(lia)) as [H3 _]. done.
Qed.

(** X3. [updateJobProgress] writes one record at most: it never adds or
    removes an id, leaves every other id as it is, keeps [id] and
    [startedAt] of the record it merges into, and does nothing when the id
    is absent. *)
Theorem X3_update_touches_one_record (jobs : gmap string Job.t)
    (id : string) (u : Update.t) :
  dom (updateJobProgress jobs id u) = dom jobs ∧
  (∀ other, other ≠ id → updateJobProgress jobs id u !! other = jobs !! other) ∧
  (jobs !! id = None → updateJobProgress jobs id u = jobs) ∧
  (∀ j, jobs !! id = Some j →
     ∃ j', updateJobProgress jobs id u !! id = Some j' ∧
       Job.id j' = Job.id j ∧ Job.startedAt j' = Job.startedAt j).
Proof.
  unfold updateJobProgress. destruct (jobs !! id) as [j |] eqn:Hj.
  - repeat split; try done.
    + rewrite dom_insert_L. apply elem_of_dom_2 in Hj.
      apply subseteq_union_1_L. by apply singleton_subseteq_l.
    + intros other Hne. by rewrite lookup_insert_ne.
    + intros j' ?. simplify_eq. eexists. by rewrite lookup_insert_eq.
  - repeat split; try done.
Qed.

Lemma assign_merge (j : Job.t) (u1 u2 : Update.t) :
  assign (assign j u1) u2 = assign j (merge_updates u1 u2).
Proof.
  destruct u1 as [s1 e1 c1 t1 n1 f1 d1 k1], u2 as [s2 e2 c2 t2 n2 f2 d2 k2].
  unfold assign, merge_updates. simpl.
  f_equal; repeat case_match; simplify_eq/=; done.
Qed.

(** X4. Two updates of a job in a row are one update with the keys of both,
    those of the later one winning; an update with no key changes nothing. *)
Theorem X4_updates_merge (jobs : gmap string Job.t) (id : string)
    (u1 u2 : Update.t) :
  updateJobProgress (updateJobProgress jobs id u1) id u2
  = updateJobProgress jobs id (merge_updates u1 u2) ∧
  updateJobProgress jobs id (Update.mk None None None None None None None None)
  = jobs.
Proof.
  unfold updateJobProgress. destruct (jobs !! id) as [j |] eqn:Hj.
  - rewrite lookup_insert_eq, insert_insert_eq, assign_merge. split; [done |].
    apply insert_id. rewrite Hj. by destruct j.
  - by rewrite Hj.
Qed.

(** X5. Once the sweep has removed a job, both query handlers answer 404
    for its id and a late update of it does nothing, while a job that is
    still processing keeps answering 200 after any sweep. *)
Theorem X5_swept_job_is_not_found (now : Z) (jobs : gmap string Job.t)
    (j : Job.t) (d : Z) (u : Update.t) (req : Request.t) :
  jobs !! Request.jobId req = Some j →
  let swept := cleanupOldJobs now jobs in
  (Job.completedAt j = Some d → (d < now - 3600000)%Z →
     ReminderController.getJobStatus swept req
     = {| code := 404; body := BodyError "Job not found" |} ∧
     ReminderController.getJobDetails swept req
     = {| code := 404; body := BodyError "Job not found" |} ∧
     updateJobProgress swept (Request.jobId req) u = swept) ∧
  (Job.completedAt j = None →
     code (ReminderController.getJobStatus swept req) = 200%Z ∧
     ReminderController.getJobDetails swept req
     = ReminderController.getJobDetails jobs req).
Proof.
  intros Hj swept.
  assert (Hproc : Job.completedAt j = None →
                  swept !! Request.jobId req = Some j).
  { intros Hc. apply cleanupOldJobs_lookup. split; [done |].
    unfold expired. by rewrite Hc. }
  assert (Hold : ∀ d, Job.completedAt j = Some d → (d < now - 3600000)%Z →
                      swept !! Request.jobId req = None).
  { intros d' Hc Hd.
    destruct (swept !! Request.jobId req) as [j' |] eqn:Hl; [| done].
    apply cleanupOldJobs_lookup in Hl as [Hj' He]. simplify_eq.
    unfold expired in He. rewrite Hc in He. apply Z.ltb_ge in He. lia. }
  unfold ReminderController.getJobStatus, ReminderController.getJobDetails,
    getJobStatusFromService, getJobStatus, updateJobProgress.
  split.
  - intros Hc Hd. subst swept. by rewrite (Hold d Hc Hd).
  - intros Hc. subst swept. by rewrite (Hproc Hc), Hj.
Qed.

(** ** The cost of a run *)

Lemma sum_costs_snoc (ds : list Detail.t) (d : Detail.t) :
  sum_costs (ds ++ [d]) = (sum_costs ds + Detail.cost d)%Z.
Proof.
  unfold sum_costs. induction ds as [| d' ds IH]; csimpl; [lia |].
  rewrite IH. lia.
Qed.

Lemma loop_result_invariant (env : Env) (userId method targetMonth : string)
    (user : User.t) (P : Job.t → Z → Prop) :
  (∀ i t c j,
     P j c →
     match verdict env userId method targetMonth user i t c with
     | Recorded d key c' => P (push j d key) c'
     | Escaped _ => True
     end) →
  ∀ tenants i c j,
    P j c →
    let r := loop_result env userId method targetMonth user i tenants c j in
    P r.1.1 r.1.2.
Proof.
  intros Hstep.
  induction tenants as [| t rest IH]; intros i c j HP; [done |].
  cbn [loop_result]. specialize (Hstep i t c j HP).
  destruct (verdict env userId method targetMonth user i t c) as [d key c' | m];
    [by apply IH | done].
Qed.

Lemma loop_result_cost (env : Env) (userId method targetMonth : string)
    (user : User.t) (tenants : list Tenant.t) (i : nat) (j : Job.t) :
  Job.totalCost j = sum_costs (Job.details j) →
  let r := loop_result env userId method targetMonth user i tenants
             (Job.totalCost j) j in
  Job.totalCost r.1.1 = sum_costs (Job.details r.1.1) ∧
  r.1.2 = Job.totalCost r.1.1.
Proof.
  intros Hj.
  apply (loop_result_invariant env userId method targetMonth user
           (λ j c, Job.totalCost j = sum_costs (Job.details j)
                   ∧ c = Job.totalCost j)); [| done].
  clear. intros i t c j [Hj ->]. unfold verdict.
  destruct (attempt env userId method targetMonth user i t) as [r | m].
  - simpl. rewrite sum_costs_snoc. simpl. split; lia.
  - destruct (e_ReminderLog_create env i true _) as [[] | m']; [| done].
    simpl. rewrite sum_costs_snoc. simpl. split; lia.
Qed.

(** X6. When a run is over, the [totalCost] of the job is the sum of the
    costs of its details, whether the job completed or failed. *)
Theorem X6_totalCost_is_the_sum_of_the_details (env : Env)
    (jobs : gmap string Job.t) (now : Z) (jobId : string) (total : Z)
    (userId : string) (tenantIds : list string) (method targetMonth : string) :
  rely env jobId → (0 ≤ total)%Z →
  ∃ j,
    w_jobs (dispatch env jobId userId tenantIds method targetMonth
              (fresh_world jobs now jobId total)) !! jobId = Some j ∧
    terminal (Job.status j) = true ∧
    Job.totalCost j = sum_costs (Job.details j).
Proof.
  intros Hrely Htotal.
  destruct (dispatch_spec env jobs now jobId total userId tenantIds method
              targetMonth Hrely Htotal) as (t & _ & _ & Hj).
  eexists. split; [exact Hj |]. unfold outcome.
  destruct (resolve env userId tenantIds method) as [[user tenants] | m];
    [| done].
  pose proof (loop_result_cost env userId method targetMonth user tenants 0
                (set_total (createReminderJob jobs now jobId total).2
                   (length tenants)) eq_refl) as [Hsum Hc].
  destruct (loop_result _ _ _ _ _ _ _ _ _) as [[j c] [m |]]; simpl in *;
    [done |].
  split; [done |]. by rewrite Hc.
Qed.

Lemma sendSMS_cost (gateway : Outcome (option GatewayResponse.t))
    (to message : string) :
  SmsResult.cost (sendSMS gateway to message)
  = if SmsResult.success (sendSMS gateway to message) then SMS_COST else 0%Z.
Proof. unfold sendSMS. by repeat case_match. Qed.

Lemma loop_result_sms_cost (env : Env) (userId targetMonth : string)
    (user : User.t) (tenants : list Tenant.t) (i : nat) (j : Job.t) :
  (∀ i to message, ∃ gateway,
     e_sendSMS env i to message
     = Returns (as_SendResult (sendSMS gateway to message))) →
  Job.totalCost j = (SMS_COST * Job.sent j)%Z →
  let r := loop_result env userId "sms" targetMonth user i tenants
             (Job.totalCost j) j in
  Job.totalCost r.1.1 = (SMS_COST * Job.sent r.1.1)%Z ∧
  r.1.2 = Job.totalCost r.1.1.
Proof.
  intros Hsms Hj.
  apply (loop_result_invariant env userId "sms" targetMonth user
           (λ j c, Job.totalCost j = (SMS_COST * Job.sent j)%Z
                   ∧ c = Job.totalCost j)); [| done].
  clear i j Hj. intros i t c j [Hj ->].
  unfold verdict, attempt, send_outcome. simpl.
  destruct (Hsms i (Tenant.phone t)
              (e_renderSMSTemplate env
                 (SmsTemplateData.mk (Tenant.name t) targetMonth
                    (Tenant.rentAmount t) (Tenant.dueDate t) (User.name user))))
    as [gateway ->].
  pose proof (sendSMS_cost gateway (Tenant.phone t)
                (e_renderSMSTemplate env
                   (SmsTemplateData.mk (Tenant.name t) targetMonth
                      (Tenant.rentAmount t) (Tenant.dueDate t)
                      (User.name user)))) as Hcost.
  set (r := sendSMS gateway _ _) in *.
  unfold detail_of, result_status, as_SendResult. simpl.
  repeat case_match; simplify_eq/=; try done; split; lia.
Qed.

(** X7. With the SMS sender of the service, a run by SMS ends with
    [totalCost = SMS_COST * sent]: a tenant is charged for exactly when it
    is counted as sent. *)
Theorem X7_sms_run_costs_50_per_sent (env : Env)
    (jobs : gmap string Job.t) (now : Z) (jobId : string) (total : Z)
    (userId : string) (tenantIds : list string) (targetMonth : string) :
  rely env jobId → (0 ≤ total)%Z →
  (∀ i to message, ∃ gateway,
     e_sendSMS env i to message
     = Returns (as_SendResult (sendSMS gateway to message))) →
  ∃ j,
    w_jobs (dispatch env jobId userId tenantIds "sms" targetMonth
              (fresh_world jobs now jobId total)) !! jobId = Some j ∧
    Job.totalCost j = (SMS_COST * Job.sent j)%Z.
Proof.
  intros Hrely Htotal Hsms.
  destruct (dispatch_spec env jobs now jobId total userId tenantIds "sms"
              targetMonth Hrely Htotal) as (t & _ & _ & Hj).
  eexists. split; [exact Hj |]. unfold outcome.
  destruct (resolve env userId tenantIds "sms") as [[user tenants] | m];
    [| done].
  pose proof (loop_result_sms_cost env userId targetMonth user tenants 0
                (set_total (createReminderJob jobs now jobId total).2
                   (length tenants)) Hsms eq_refl) as [Hsum Hc].
  destruct (loop_result _ _ _ _ _ _ _ _ _) as [[j c] [m |]]; simpl in *;
    [done |].
  by rewrite Hc.
Qed.

Lemma count_status_all (s : DeliveryStatus) (ds : list Detail.t) :
  Forall (λ d, Detail.status d = s) ds →
  count_status s ds = Z.of_nat (length ds) ∧
  ∀ s', s' ≠ s → count_status s' ds = 0%Z.
Proof.
  unfold count_status. induction 1 as [| d ds Hd _ [IH1 IH2]].
  - by split.
  - split.
    + simpl. rewrite Hd. destruct s; simpl; lia.
    + intros s' Hs'. specialize (IH2 s' Hs'). simpl. rewrite Hd.
      by destruct s, s'.
Qed.

Lemma details_from_length (env : Env) (userId method targetMonth : string)
    (user : User.t) (tenants : list Tenant.t) :
  ∀ i, length (details_from env userId method targetMonth user i tenants)
       = length tenants.
Proof. induction tenants as [| t rest IH]; intros i; simpl; by rewrite ?IH. Qed.

Lemma details_from_Forall (env : Env) (userId method targetMonth : string)
    (user : User.t) (P : Detail.t → Prop) (tenants : list Tenant.t) :
  (∀ i t, t ∈ tenants →
     P (detail_at env userId method targetMonth user i t)) →
  ∀ i, Forall P (details_from env userId method targetMonth user i tenants).
Proof.
  induction tenants as [| t rest IH]; intros HP i; simpl; constructor.
  - apply HP. by left.
  - apply IH. intros k t' Ht'. apply HP. by right.
Qed.

(** X8. When the user and the tenants are found and every collaborator
    works (each send is delivered, each write returns), the job completes
    with every eligible tenant sent: [sent = total], [failed = 0], no
    error, and one [sent] detail per tenant. *)
Theorem X8_all_delivered (env : Env) (jobs : gmap string Job.t) (now : Z)
    (jobId : string) (total : Z) (userId : string) (tenantIds : list string)
    (method targetMonth : string) (user : User.t) (tenants : list Tenant.t) :
  rely env jobId → (0 ≤ total)%Z →
  resolve env userId tenantIds method = Returns (user, tenants) →
  (∀ i t, t ∈ tenants →
     ∃ r, send_outcome env method targetMonth user i t = Returns r ∧
          SendResult.success r = true) →
  (∀ i in_catch doc, e_ReminderLog_create env i in_catch doc = Returns tt) →
  (∀ i t, e_tenant_save env i t = Returns tt) →
  ∃ j,
    w_jobs (dispatch env jobId userId tenantIds method targetMonth
              (fresh_world jobs now jobId total)) !! jobId = Some j ∧
    Job.status j = Completed ∧ Job.error j = None ∧
    Job.total j = Z.of_nat (length tenants) ∧
    Job.sent j = Job.total j ∧ Job.failed j = 0%Z ∧
    Forall (λ d, Detail.status d = StatusSent) (Job.details j).
Proof.
  intros Hrely Htotal Hres Hsend Hlog Hsave.
  destruct (dispatch_isolated env jobs now jobId total userId tenantIds method
              targetMonth user tenants Hrely Htotal Hres (λ i, Hlog i true))
    as (j & Hj & Hst & He & Hd & Hs & Hf & Ht).
  assert (Hall : Forall (λ d, Detail.status d = StatusSent) (Job.details j)).
  { rewrite Hd. apply details_from_Forall. intros i t Hin.
    destruct (Hsend i t Hin) as (r & Hr & Hok).
    unfold detail_at, attempt. rewrite Hr, Hlog, Hok, Hsave.
    unfold detail_of, result_status. simpl. by rewrite Hok. }
  destruct (count_status_all _ _ Hall) as [Hn Hz].
  exists j. rewrite Hs, Hf, Hn, (Hz StatusFailed), Ht by done.
  rewrite Hd at 1. by rewrite details_from_length.
Qed.

(** X9. When the user and the tenants are found and no send is delivered
    (the sender answers a failure or raises), the job still ends
    [completed], with no top-level error: [failed = total], [sent = 0] and
    one [failed] detail per tenant. *)
Theorem X9_nothing_delivered_still_completes (env : Env)
    (jobs : gmap string Job.t) (now : Z) (jobId : string) (total : Z)
    (userId : string) (tenantIds : list string)
    (method targetMonth : string) (user : User.t) (tenants : list Tenant.t) :
  rely env jobId → (0 ≤ total)%Z →
  resolve env userId tenantIds method = Returns (user, tenants) →
  (∀ i t, t ∈ tenants →
     match send_outcome env method targetMonth user i t with
     | Returns r => SendResult.success r = false
     | Raises _ => True
     end) →
  (∀ i doc, e_ReminderLog_create env i true doc = Returns tt) →
  ∃ j,
    w_jobs (dispatch env jobId userId tenantIds method targetMonth
              (fresh_world jobs now jobId total)) !! jobId = Some j ∧
    Job.status j = Completed ∧ Job.error j = None ∧
    Job.total j = Z.of_nat (length tenants) ∧
    Job.failed j = Job.total j ∧ Job.sent j = 0%Z ∧
    Forall (λ d, Detail.status d = StatusFailed) (Job.details j).
Proof.
  intros Hrely Htotal Hres Hsend Hlog.
  destruct (dispatch_isolated env jobs now jobId total userId tenantIds method
              targetMonth user tenants Hrely Htotal Hres Hlog)
    as (j & Hj & Hst & He & Hd & Hs & Hf & Ht).
  assert (Hall : Forall (λ d, Detail.status d = StatusFailed) (Job.details j)).
  { rewrite Hd. apply details_from_Forall. intros i t Hin.
    specialize (Hsend i t Hin). unfold detail_at, attempt.
    destruct (send_outcome env method targetMonth user i t) as [r | m];
      [| done].
    unfold detail_of, result_status. rewrite Hsend.
    destruct (e_ReminderLog_create env i false _) as [[] | m]; simpl;
      by rewrite ?Hsend. }
  destruct (count_status_all _ _ Hall) as [Hn Hz].
  exists j. rewrite Hs, Hf, Hn, (Hz StatusSent), Ht by done.
  rewrite Hd at 1. by rewrite details_from_length.
Qed.

(** X10. When the user or the tenants are not found, or their lookup
    raises, the run makes the lookups and no other call (nothing is sent,
    logged or saved), and the job goes to [failed] with that message, with
    [completedAt] set, no detail, zero counters and the [total] it was
    created with. *)
Theorem X10_unresolved_run_only_looks_up (env : Env)
    (jobs : gmap string Job.t) (now : Z) (jobId : string) (total : Z)
    (userId : string) (tenantIds : list string)
    (method targetMonth : string) (m : string) :
  rely env jobId → (0 ≤ total)%Z →
  resolve env userId tenantIds method = Raises m →
  let w := dispatch env jobId userId tenantIds method targetMonth
             (fresh_world jobs now jobId total) in
  w_events w
  = EvUserFindById userId
      :: match e_User_findById env userId with
         | Returns (Some _) => [EvTenantFind tenantIds userId]
         | _ => []
         end ∧
  ∃ t,
    w_jobs w !! jobId
    = Some (Job.mk jobId Failed total 0 0 [] 0 now (Some t) (Some m)).
Proof.
  intros Hrely Htotal Hres w. split.
  - subst w. revert Hres.
    unfold dispatch, resolve, processRemindersInBackground, User_findById,
      Tenant_find, fail_job.
    destruct (e_User_findById env userId) as [[user |] | e] eqn:Huser;
      [| intros _; by exec..].
    destruct (e_Tenant_collection env) as [docs | e] eqn:Hdocs.
    + destruct (bool_decide (List.filter (matches tenantIds userId) docs = []))
        eqn:Hnil; [| done].
      intros _. by repeat step.
    + intros _. by repeat step.
  - destruct (dispatch_spec env jobs now jobId total userId tenantIds method
                targetMonth Hrely Htotal) as (t & _ & _ & Hj).
    exists t. subst w. rewrite Hj. unfold outcome. by rewrite Hres.
Qed.

(** ** The calls of a run *)

Section Calls.

Variable env : Env.
Variables (jobId userId : string) (tenantIds : list string)
  (method targetMonth : string).

Lemma count_app (f : Event → bool) (l1 l2 : list Event) :
  count_calls f (l1 ++ l2) = (count_calls f l1 + count_calls f l2)%nat.
Proof. unfold count_calls. by rewrite List.filter_app, length_app. Qed.

(** The calls of one iteration: at most one send, a save only after a
    send, one or two reminder-log writes, nothing else. *)
Lemma iteration_calls (user : User.t) (i : nat) (tenant : Tenant.t)
    (w : World) :
  ∃ evs,
    w_events
      (try_catch
         (process_tenant env jobId userId method targetMonth user i tenant)
         (recover env jobId userId method i tenant) w).1
    = w_events w ++ evs ∧
    forallb per_tenant evs = true ∧
    (count_calls is_send evs ≤ 1)%nat ∧
    (count_calls is_save evs ≤ count_calls is_send evs)%nat ∧
    (1 ≤ count_calls is_log evs ≤ 2)%nat.
Proof.
  unfold process_tenant, recover. exec.
  repeat case_match; simplify_eq/=;
    (eexists; split; [rewrite <- ?app_assoc; simpl; reflexivity |]);
    (split; [reflexivity |]); unfold count_calls; simpl; lia.
Qed.

Lemma loop_calls (user : User.t) (tenants : list Tenant.t) :
  ∀ (i : nat) (w : World),
    ∃ evs,
      w_events
        (for_each_tenant env jobId userId method targetMonth user i tenants
           w).1
      = w_events w ++ evs ∧
      forallb per_tenant evs = true ∧
      (count_calls is_send evs ≤ length tenants)%nat ∧
      (count_calls is_save evs ≤ count_calls is_send evs)%nat ∧
      (count_calls is_log evs ≤ 2 * length tenants)%nat.
Proof.
  induction tenants as [| tenant rest IH]; intros i w.
  - exists []. simpl. rewrite app_nil_r. unfold count_calls. simpl.
    repeat split; lia.
  - destruct (iteration_calls user i tenant w)
      as (evs1 & Hev1 & Hper1 & Hsend1 & Hsave1 & Hlog1).
    cbn [for_each_tenant]. unfold mbind, M_bind, bind.
    destruct (try_catch _ _ w) as [w1 [[] | e]]; simpl in Hev1.
    + destruct (IH (S i) w1) as (evs2 & Hev2 & Hper2 & Hsend2 & Hsave2 & Hlog2).
      exists (evs1 ++ evs2).
      rewrite Hev2, Hev1, <- app_assoc, forallb_app, Hper1, Hper2, !count_app.
      simpl. repeat split; lia.
    + exists evs1. simpl. rewrite Hev1. repeat split; try done; lia.
Qed.

End Calls.

(** X11. The calls of a run, in order: the user lookup; then, when the user
    is found, the tenant lookup, the calls made for the tenants and at most
    one summary event, which is the last call.  Among the calls made for
    the tenants there are no more sends than eligible tenants and no more
    saves than sends; no timer is awaited. *)
Theorem X11_calls_of_a_run (env : Env) (jobId userId : string)
    (tenantIds : list string) (method targetMonth : string) (w : World) :
  ∃ evs,
    w_events (dispatch env jobId userId tenantIds method targetMonth w)
    = w_events w ++ evs ∧
    (evs = [EvUserFindById userId] ∨
     ∃ per tail,
       evs = EvUserFindById userId :: EvTenantFind tenantIds userId
               :: per ++ tail ∧
       forallb per_tenant per = true ∧
       (count_calls is_send per ≤ reachable env userId tenantIds method)%nat ∧
       (count_calls is_save per ≤ count_calls is_send per)%nat ∧
       (tail = [] ∨
        ∃ sent failed totalCost,
          tail = [EvEventLogCreate userId "REMINDERS_SENT" method sent failed
                    totalCost])).
Proof.
  unfold dispatch, reachable, resolve, processRemindersInBackground,
    User_findById, Tenant_find, fail_job, EventLog_logEvent.
  destruct (e_User_findById env userId) as [[user |] | m] eqn:Huser;
    [| exec; eexists; split; [reflexivity | by left]..].
  destruct (e_Tenant_collection env) as [docs | m] eqn:Hdocs.
  - destruct (bool_decide (List.filter (matches tenantIds userId) docs = []))
      eqn:Hnil.
    + repeat step. eexists. split; [simpl; by rewrite <- app_assoc |].
      right. exists [], []. simpl. unfold count_calls. simpl.
      repeat split; [lia | lia | by left].
    + repeat step.
      fold (eligible method (List.filter (matches tenantIds userId) docs)).
      set (el := eligible method (List.filter (matches tenantIds userId) docs)).
      match goal with
      | |- context [for_each_tenant _ _ _ _ _ _ _ _ ?W] =>
          destruct (loop_calls env jobId userId method targetMonth user el 0 W)
            as (per & Hev & Hper & Hsend & Hsave & _);
          destruct (for_each_tenant env jobId userId method targetMonth user
                      0 el W) as [w1 [[] | e]]
      end; simpl in Hev.
      * repeat case_match; simplify_eq/=;
          (eexists; split;
           [rewrite ?Hev; simpl; rewrite <- ?app_assoc; simpl; reflexivity |]);
          right; exists per;
          [ eexists [_]; repeat split; eauto
          | eexists [_]; repeat split; eauto
          | exists []; rewrite app_nil_r; repeat split; eauto ].
      * eexists. split;
          [simpl; rewrite Hev; simpl; rewrite <- ?app_assoc; simpl; reflexivity |].
        right. exists per, []. rewrite app_nil_r. repeat split; eauto.
  - repeat step. eexists. split; [simpl; by rewrite <- app_assoc |].
    right. exists [], []. simpl. unfold count_calls. simpl.
    repeat split; [lia | lia | by left].
Qed.

(** ** The SMS service *)

(** X12. [sendSMS] reports a delivery exactly when the gateway answered
    with a first recipient whose status is ['Success'] or whose code is
    101, and it charges [SMS_COST] exactly then: a delivery carries a
    message id and no error, a failure costs nothing and carries an error. *)
Theorem X12_sendSMS_charges_iff_delivered
    (gateway : Outcome (option GatewayResponse.t)) (to message : string) :
  let r := sendSMS gateway to message in
  SmsResult.recipient r = to ∧
  (SmsResult.success r = true ↔
   ∃ response first others,
     gateway = Returns (Some response) ∧
     GatewayResponse.Recipients response = Some (Some (first :: others)) ∧
     (Recipient.status first = "Success" ∨
      Recipient.statusCode first = 101%Z)) ∧
  (if SmsResult.success r
   then SmsResult.status r = "sent" ∧ SmsResult.cost r = SMS_COST ∧
        SmsResult.error r = None ∧ is_Some (SmsResult.messageId r)
   else SmsResult.status r = "failed" ∧ SmsResult.cost r = 0%Z ∧
        is_Some (SmsResult.error r) ∧ SmsResult.messageId r = None).
Proof.
  assert (Hno : ∀ e,
    let r := SmsResult.mk false "failed" None (Some e) 0 to in
    ¬ (∃ response first others,
         gateway = Returns (Some response) ∧
         GatewayResponse.Recipients response = Some (Some (first :: others)) ∧
         (Recipient.status first = "Success" ∨
          Recipient.statusCode first = 101%Z)) →
    SmsResult.recipient r = to ∧
    (SmsResult.success r = true ↔
     ∃ response first others,
       gateway = Returns (Some response) ∧
       GatewayResponse.Recipients response = Some (Some (first :: others)) ∧
       (Recipient.status first = "Success" ∨
        Recipient.statusCode first = 101%Z)) ∧
    (if SmsResult.success r
     then SmsResult.status r = "sent" ∧ SmsResult.cost r = SMS_COST ∧
          SmsResult.error r = None ∧ is_Some (SmsResult.messageId r)
     else SmsResult.status r = "failed" ∧ SmsResult.cost r = 0%Z ∧
          is_Some (SmsResult.error r) ∧ SmsResult.messageId r = None)).
  { intros e r Hnot. simpl. split; [done |]. split; [| by eauto].
    split; [done | by intros ?]. }
  unfold sendSMS.
  destruct gateway as [[response |] | m];
    [| apply Hno; intros (? & ? & ? & ? & _); simplify_eq..].
  destruct (GatewayResponse.Recipients response) as [[[| first others] |] |]
    eqn:Hrec; [| | apply Hno; intros (? & ? & ? & ? & ? & _); simplify_eq..].
  { apply Hno. intros (? & ? & ? & ? & ? & _). simplify_eq. }
  destruct (String.eqb_spec (Recipient.status first) "Success") as [Hs | Hs];
    simpl.
  - split; [done |]. split; [| by eauto]. split; [| done]. intros _.
    eexists _, _, _. eauto.
  - destruct (Z.eqb_spec (Recipient.statusCode first) 101) as [Hc | Hc]; simpl.
    + split; [done |]. split; [| by eauto]. split; [| done]. intros _.
      eexists _, _, _. eauto.
    + apply Hno. intros (? & ? & ? & ? & ? & [? | ?]); by simplify_eq/=.
Qed.

Lemma sendBulkSMS_from_spec (env : Env)
    (messages : list (string * string)) :
  (∀ i to message, ∃ r, e_sendSMS env i to message = Returns r) →
  ∀ i results w,
    ∃ w' rs,
      sendBulkSMS_from env i messages results w = (w', Returns (results ++ rs)) ∧
      length rs = length messages ∧
      w_events w' = w_events w ++ bulk_calls messages ∧
      ∀ k m, messages !! k = Some m →
             ∃ r, rs !! k = Some r ∧
                  e_sendSMS env (i + k) m.1 m.2 = Returns r.
Proof.
  intros Hsend.
  induction messages as [| [to message] rest IH]; intros i results w.
  - exists w, []. simpl. by rewrite !app_nil_r.
  - destruct (Hsend i to message) as [r Hr].
    destruct (IH (S i) (results ++ [r])
                (tick env (EvDelay 100) (tick env (EvSendSMS to message) w)))
      as (w' & rs & Hrun & Hlen & Hev & Hk).
    exists w', (r :: rs). simpl.
    unfold mbind, M_bind, bind, await. rewrite Hr, Hrun, <- app_assoc.
    split; [done |]. split; [by rewrite Hlen |].
    split; [rewrite Hev; simpl; by rewrite <- !app_assoc |].
    intros [| k] m Hm; simpl in *.
    + simplify_eq. exists r. by rewrite Nat.add_0_r.
    + destruct (Hk k m Hm) as (r' & ? & ?). exists r'.
      by replace (i + S k)%nat with (S i + k)%nat by lia.
Qed.

(** X13. With a sender that does not raise (as [sendSMS], which catches
    every error), [sendBulkSMS] returns one result per message, in the
    order of the messages, and its calls are, for each message in turn, the
    send and then the 100 ms timer. *)
Theorem X13_sendBulkSMS_one_result_per_message (env : Env)
    (messages : list (string * string)) (w : World) :
  (∀ i to message, ∃ r, e_sendSMS env i to message = Returns r) →
  ∃ w' results,
    sendBulkSMS env messages w = (w', Returns results) ∧
    length results = length messages ∧
    w_events w' = w_events w ++ bulk_calls messages ∧
    ∀ k m, messages !! k = Some m →
           ∃ r, results !! k = Some r ∧
                e_sendSMS env k m.1 m.2 = Returns r.
Proof.
  intros Hsend.
  destruct (sendBulkSMS_from_spec env messages Hsend 0 [] w)
    as (w' & rs & Hrun & Hlen & Hev & Hk).
  by exists w', rs.
Qed.

(** ** The send request *)

Ltac run_handler :=
  unfold ReminderController.sendReminders, ReminderController.respond,
    ReminderController.FeatureFlag_isEnabled, ReminderController.create,
    User_findById, Tenant_find, createReminderJob;
  exec.

Ltac one_of_the_codes :=
  simpl; repeat first [apply list_elem_of_here | apply list_elem_of_further].

Lemma filter_nonempty_length {A} (f : A → bool) (l : list A) :
  bool_decide (List.filter f l = []) = false →
  (1 ≤ Z.of_nat (length (List.filter f l)))%Z.
Proof.
  intros H. apply bool_decide_eq_false in H.
  destruct (List.filter f l); [done | simpl; lia].
Qed.

(** What [sendReminders] does, for every request and every behaviour of
    the stores. *)
Lemma sendReminders_spec (env : Env) (req : Request.t) (w : World) :
  ∃ w' response background,
    ReminderController.sendReminders env req w
    = (w', Returns (response, background)) ∧
    code response ∈ [202; 400; 403; 404; 500]%Z ∧
    match background with
    | None => code response ≠ 202%Z
    | Some b =>
        ∃ total startedAt docs,
          response
          = {| code := 202;
               body := BodyAccepted "Reminders are being sent in the background"
                         (ReminderController.bg_jobId b) total
                         (ReminderController.bg_method b) |} ∧
          (1 ≤ total)%Z ∧
          w_jobs w' !! ReminderController.bg_jobId b
          = Some (Job.mk (ReminderController.bg_jobId b) Processing total 0 0
                    [] 0 startedAt None None) ∧
          ReminderController.bg_userId b = ReqUser.userId (Request.user req) ∧
          Request.tenantIds req = Some (ReminderController.bg_tenantIds b) ∧
          Request.method req = Some (ReminderController.bg_method b) ∧
          ReminderController.bg_method b ∈ ["sms"; "email"] ∧
          e_Tenant_collection env = Returns docs ∧
          total
          = Z.of_nat
              (length
                 (eligible (ReminderController.bg_method b)
                    (List.filter
                       (matches (ReminderController.bg_tenantIds b)
                          (ReminderController.bg_userId b)) docs)))
    end.
Proof.
  run_handler. unfold eligible.
  repeat case_match; simplify_eq/=;
    (eexists _, _, _; split; [reflexivity |]; simpl;
     split; [one_of_the_codes |]); try done.
  all: eexists _, _, _; split; [reflexivity |].
  all: split;
    [first [by apply filter_nonempty_length
           | match goal with
             | H : (_ =? 0)%nat = false |- _ => apply Nat.eqb_neq in H; lia
             end] |].
  all: split; [apply lookup_insert_eq |].
  all: do 3 (split; [reflexivity |]).
  all: split;
    [match goal with
     | H : negb (bool_decide _) = false |- _ =>
         apply negb_false_iff, bool_decide_eq_true in H; exact H
     end |].
  all: split; [reflexivity |].
  all: match goal with
       | H : String.eqb _ "email" = _ |- _ => by rewrite H
       end.
Qed.

(** X14. [sendReminders] always answers, with one of the codes 202, 400,
    403, 404 and 500.  It starts the background work exactly when it
    answers 202; then the job it announces is in the registry, processing,
    with zero counters and the announced total, which is at least 1, and
    the background work gets the id of that job and the user, tenant ids
    and method of the request. *)
Theorem X14_sendReminders_starts_work_iff_accepted (env : Env)
    (req : Request.t) (w : World) :
  ∃ w' response background,
    ReminderController.sendReminders env req w
    = (w', Returns (response, background)) ∧
    code response ∈ [202; 400; 403; 404; 500]%Z ∧
    match background with
    | None => code response ≠ 202%Z
    | Some b =>
        ∃ total startedAt,
          response
          = {| code := 202;
               body := BodyAccepted "Reminders are being sent in the background"
                         (ReminderController.bg_jobId b) total
                         (ReminderController.bg_method b) |} ∧
          (1 ≤ total)%Z ∧
          w_jobs w' !! ReminderController.bg_jobId b
          = Some (Job.mk (ReminderController.bg_jobId b) Processing total 0 0
                    [] 0 startedAt None None) ∧
          ReminderController.bg_userId b = ReqUser.userId (Request.user req) ∧
          Request.tenantIds req = Some (ReminderController.bg_tenantIds b) ∧
          Request.method req = Some (ReminderController.bg_method b) ∧
          ReminderController.bg_method b ∈ ["sms"; "email"]
    end.
Proof.
  destruct (sendReminders_spec env req w)
    as (w' & response & background & Hrun & Hcode & Hbg).
  exists w', response, background. split; [exact Hrun |].
  split; [exact Hcode |].
  destruct background as [b |]; [| exact Hbg].
  destruct Hbg as (total & startedAt & docs & H1 & H2 & H3 & H4 & H5 & H6
                   & H7 & _).
  exists total, startedAt. auto 10.
Qed.

(** X15. A request without a non-empty array of tenant ids, or with a
    method other than ['sms'] and ['email'], is answered 400 before any
    call is made: the world is as it was (no lookup, no job) and no
    background work is started. *)
Theorem X15_malformed_request_is_rejected_before_any_call (env : Env)
    (req : Request.t) (w : World) :
  Request.tenantIds req ∈ [None; Some []] ∨
  Request.method req ∉ [Some "sms"; Some "email"] →
  ∃ e,
    ReminderController.sendReminders env req w
    = (w, Returns ({| code := 400; body := BodyError e |}, None)).
Proof.
  intros Hbad. run_handler.
  destruct (Request.tenantIds req) as [[| t ts] |]; [by eexists | | by eexists].
  destruct Hbad as [Hbad | Hbad].
  { apply elem_of_cons in Hbad as [? | Hbad]; [done |].
    by apply list_elem_of_singleton in Hbad. }
  destruct (Request.method req) as [method |]; [| by eexists].
  destruct (bool_decide_reflect (method ∈ ["sms"; "email"])) as [Hin | Hout];
    simpl; [| by eexists].
  destruct Hbad. apply elem_of_cons in Hin as [-> | Hin]; [by left | right].
  apply list_elem_of_singleton in Hin as ->. by left.
Qed.

(** X16. When the flag of the method asked for exists and is disabled, a
    well-formed request is answered 403 after two lookups of that flag and
    no other call: neither the user nor the tenants are looked up, no job
    is created and no background work is started.  The message is the one
    stored with the flag when it is not empty. *)
Theorem X16_disabled_method_is_refused_before_the_lookups (env : Env)
    (req : Request.t) (w : World) (t : string) (ts : list string) (method : string)
    (flag : FeatureFlag.t) :
  Request.tenantIds req = Some (t :: ts) →
  Request.method req = Some method → method ∈ ["sms"; "email"] →
  e_FeatureFlag_findOne env (featureKey_of method) = Returns (Some flag) →
  FeatureFlag.enabled flag = false →
  ∃ w' message,
    ReminderController.sendReminders env req w
    = (w', Returns
             ({| code := 403;
                 body := BodyUnavailable "Feature unavailable" message method
                           false
                           (if String.eqb method "sms"
                            then Some "Try using email reminders instead"
                            else None) |}, None)) ∧
    w_events w'
    = w_events w ++ [EvFeatureFlagFindOne (featureKey_of method);
                     EvFeatureFlagFindOne (featureKey_of method)] ∧
    (∀ m, FeatureFlag.disabledMessage flag = Some m → m ≠ EmptyString →
          message = m).
Proof.
  intros Hids Hmethod Hin Hflag Hoff.
  assert (Hcases : method = "sms" ∨ method = "email").
  { apply elem_of_cons in Hin as [-> | Hin]; [by left | right].
    by apply list_elem_of_singleton in Hin. }
  run_handler. rewrite Hids, Hmethod.
  destruct Hcases as [-> | ->]; unfold featureKey_of in *; simpl in *;
    rewrite Hflag; simpl;
    rewrite Hoff; simpl;
    (eexists _, _; split; [reflexivity |]; simpl;
     split; [by rewrite <- app_assoc |]);
    intros m -> Hm; simpl; by destruct (String.eqb_spec m EmptyString).
Qed.

Lemma filter_matches_length (tenantIds : list string) (userId : string)
    (docs : list Tenant.t) :
  NoDup (Tenant._id <$> docs) →
  (length (List.filter (matches tenantIds userId) docs) ≤ length tenantIds)%nat.
Proof.
  intros Hnodup.
  rewrite <- (length_fmap Tenant._id). apply submseteq_length, NoDup_submseteq.
  - eapply sublist_NoDup; [exact Hnodup |]. apply fmap_sublist, filter_sublist.
  - intros id (t & -> & Ht)%list_elem_of_fmap.
    apply list_elem_of_In, filter_In in Ht as [_ Ht]. unfold matches in Ht.
    apply andb_true_iff in Ht as [Ht _]. apply andb_true_iff in Ht as [Ht _].
    by apply bool_decide_eq_true in Ht.
Qed.

(** X17. With a tenant collection whose ids are distinct, the total
    announced by an accepted request is at most the number of tenant ids
    asked for. *)
Theorem X17_announced_total_is_bounded (env : Env) (req : Request.t)
    (w w' : World) (docs : list Tenant.t) (response : Response)
    (b : ReminderController.Background) (message jobId : string) (total : Z)
    (method : string) :
  e_Tenant_collection env = Returns docs →
  NoDup (Tenant._id <$> docs) →
  ReminderController.sendReminders env req w
  = (w', Returns (response, Some b)) →
  body response = BodyAccepted message jobId total method →
  (1 ≤ total ≤ Z.of_nat (length (ReminderController.bg_tenantIds b)))%Z.
Proof.
  intros Hdocs Hnodup Hrun Hbody.
  destruct (sendReminders_spec env req w)
    as (w1 & response1 & background & Hrun1 & _ & Hbg).
  rewrite Hrun in Hrun1. simplify_eq.
  destruct Hbg as (total' & startedAt & docs' & -> & Hpos & _ & _ & _ & _ & _
                   & Hdocs' & Htotal).
  rewrite Hdocs in Hdocs'. simpl in Hbody. simplify_eq.
  split; [exact Hpos |].
  pose proof (filter_matches_length (ReminderController.bg_tenantIds b)
                (ReminderController.bg_userId b) docs' Hnodup) as Hle.
  pose proof (submseteq_length _ _
                (sublist_submseteq _ _
                   (filter_sublist (λ t, truthy (Tenant.email t))
                      (List.filter
                         (matches (ReminderController.bg_tenantIds b)
                            (ReminderController.bg_userId b)) docs')))) as Hle'.
  unfold eligible. destruct (String.eqb _ "email"); lia.
Qed.

(** ** Feature flags *)

(** X18. [requireFeature] fails open: it blocks the request, with 403 and
    a message that is not empty, only when the first lookup returns a flag
    that is disabled and the second lookup returns; when a lookup raises,
    also the second one, made for a flag known to be disabled, the request
    goes on.  It never raises. *)
Theorem X18_requireFeature_fails_open (env : Env) (featureKey : string)
    (first second : Outcome (option FeatureFlag.t)) (w : World) :
  ∃ w' gate,
    requireFeature env featureKey first second w = (w', Returns gate) ∧
    match first, second with
    | Returns (Some flag), Returns stored =>
        if FeatureFlag.enabled flag then gate = GateNext
        else ∃ message,
               gate = GateBlocked 403 "Feature unavailable" message featureKey
                        false ∧
               message ≠ EmptyString ∧
               (∀ flag' m,
                  stored = Some flag' →
                  FeatureFlag.disabledMessage flag' = Some m →
                  m ≠ EmptyString → message = m)
    | _, _ => gate = GateNext
    end.
Proof.
  unfold requireFeature, isEnabled, FeatureFlag_findOne, disabledMessage_or.
  exec.
  destruct first as [[flag |] | e]; simpl; [| by eauto..].
  destruct (FeatureFlag.enabled flag); simpl.
  { destruct second as [? | ?]; by eauto. }
  destruct second as [stored | e]; simpl; [| by eauto].
  eexists _, _. split; [reflexivity |]. eexists. split; [reflexivity |].
  destruct stored as [[on [m |]] |]; simpl; try (split; [done | by intros]).
  - destruct (String.eqb_spec m EmptyString) as [-> | Hm]; simpl.
    + split; [done |]. intros ? ? ? ? ?. by simplify_eq/=.
    + split; [done |]. intros ? ? ? ? ?. by simplify_eq/=.
  - split; [done |]. intros ? ? ? ? ?. by simplify_eq/=.
Qed.

(** X19. When the flag lookup raises, the two guards of the same feature
    disagree: the middleware lets the request through, while the send
    handler answers 500 and starts no work. *)
Theorem X19_flag_store_down (env : Env) (req : Request.t) (w : World)
    (t : string)
    (ts : list string) (method e : string)
    (second : Outcome (option FeatureFlag.t)) :
  Request.tenantIds req = Some (t :: ts) →
  Request.method req = Some method → method ∈ ["sms"; "email"] →
  e_FeatureFlag_findOne env (featureKey_of method) = Raises e →
  (requireFeature env (featureKey_of method)
     (e_FeatureFlag_findOne env (featureKey_of method)) second w).2
  = Returns GateNext ∧
  (ReminderController.sendReminders env req w).2
  = Returns ({| code := 500; body := BodyError "Failed to send reminders" |},
             None).
Proof.
  intros Hids Hmethod Hin Hflag.
  assert (Hcases : method = "sms" ∨ method = "email").
  { apply elem_of_cons in Hin as [-> | Hin]; [by left | right].
    by apply list_elem_of_singleton in Hin. }
  split.
  - rewrite Hflag. unfold requireFeature, isEnabled, FeatureFlag_findOne.
    by exec.
  - unfold ReminderController.sendReminders, ReminderController.respond,
      ReminderController.FeatureFlag_isEnabled.
    exec. rewrite Hids, Hmethod.
    destruct Hcases as [-> | ->]; unfold featureKey_of in *; simpl in *;
      by rewrite Hflag.
Qed.

(** X20. [getAvailableMethods] always answers: 200 when the four lookups
    return, 500 when one raises.  In a 200 answer a method is available
    exactly when it is enabled, the recommended method is an enabled one
    (SMS first), there is none exactly when no method is enabled, and an
    enabled method carries no message.  The two lookups made for the
    messages are not started when a lookup of the first pair raises. *)
Theorem X20_getAvailableMethods_recommends_an_enabled_method (env : Env)
    (sms1 email1 sms2 email2 : Outcome (option FeatureFlag.t)) (w : World) :
  ∃ w' response,
    getAvailableMethods env sms1 email1 sms2 email2 w
    = (w', Returns response) ∧
    match response with
    | MethodsOk c sms email hasAnyMethod recommendedMethod =>
        c = 200%Z ∧
        (∃ a b c d, sms1 = Returns a ∧ email1 = Returns b ∧
                    sms2 = Returns c ∧ email2 = Returns d) ∧
        MethodInfo.available sms = MethodInfo.enabled sms ∧
        MethodInfo.available email = MethodInfo.enabled email ∧
        hasAnyMethod = MethodInfo.enabled sms || MethodInfo.enabled email ∧
        recommendedMethod
        = (if MethodInfo.enabled sms then Some "sms"
           else if MethodInfo.enabled email then Some "email" else None) ∧
        (hasAnyMethod = false ↔ recommendedMethod = None) ∧
        (MethodInfo.enabled sms = true → MethodInfo.message sms = None) ∧
        (MethodInfo.enabled email = true → MethodInfo.message email = None) ∧
        w_events w'
        = w_events w ++ [EvFeatureFlagFindOne "sms_reminders";
                         EvFeatureFlagFindOne "email_reminders";
                         EvFeatureFlagFindOne "sms_reminders";
                         EvFeatureFlagFindOne "email_reminders"]
    | MethodsFailed c error =>
        c = 500%Z ∧
        ((∃ e, sms1 = Raises e ∨ email1 = Raises e) ∧
         w_events w'
         = w_events w ++ [EvFeatureFlagFindOne "sms_reminders";
                          EvFeatureFlagFindOne "email_reminders"]
         ∨
         (∃ e, sms2 = Raises e ∨ email2 = Raises e) ∧
         w_events w'
         = w_events w ++ [EvFeatureFlagFindOne "sms_reminders";
                          EvFeatureFlagFindOne "email_reminders";
                          EvFeatureFlagFindOne "sms_reminders";
                          EvFeatureFlagFindOne "email_reminders"])
    end.
Proof.
  unfold getAvailableMethods, Promise_all2, isEnabled, FeatureFlag_findOne.
  exec.
  destruct sms1 as [a | e1], email1 as [b | e2]; simpl;
    [| eexists _, _; split; [reflexivity |]; split; [done |]; left;
       (split; [by eauto |]); simpl; by rewrite <- !app_assoc..].
  destruct sms2 as [c | e3], email2 as [d | e4]; simpl;
    [| eexists _, _; split; [reflexivity |]; split; [done |]; right;
       (split; [by eauto |]); simpl; by rewrite <- !app_assoc..].
  eexists _, _. split; [reflexivity |]. simpl.
  split; [done |]. split; [by eauto 10 |].
  do 4 (split; [done |]).
  split; [by repeat case_match |].
  split; [by intros -> |]. split; [by intros -> |].
  by rewrite <- !app_assoc.
Qed.

(** ** The role guards and the error handler *)

(** X21. No request passes both role guards: [requireAdmin] lets through
    exactly the users whose role is ['admin'], [requireLandlord] exactly
    those whose role is ['landlord'], and both answer 401 to a request
    without a user. *)
Theorem X21_role_guards_are_exclusive (user : option ReqUser.t) :
  (requireAdmin user = CallsNext ↔
   ∃ u, user = Some u ∧ ReqUser.role u = "admin") ∧
  (requireLandlord user = CallsNext ↔
   ∃ u, user = Some u ∧ ReqUser.role u = "landlord") ∧
  ¬ (requireAdmin user = CallsNext ∧ requireLandlord user = CallsNext) ∧
  (user = None →
   requireAdmin user = answer 401 "Authentication required" ∧
   requireLandlord user = answer 401 "Authentication required").
Proof.
  unfold requireAdmin, requireLandlord.
  destruct user as [u |]; simpl.
  - destruct (String.eqb_spec (ReqUser.role u) "admin") as [Ha | Ha],
      (String.eqb_spec (ReqUser.role u) "landlord") as [Hl | Hl]; simpl;
      repeat split; try done; try (by eauto);
      try (by intros (? & ? & ?); simplify_eq);
      try (by intros [? ?]); congruence.
  - repeat split; try done; try (by intros (? & ? & ?)); by intros [? ?].
Qed.

(** X22. When the error handler answers, the status is never 200: it is
    400, 401 or 409 for the errors it knows, and otherwise the status set
    before, with 500 in place of 200.  The [error] of the body is never
    empty, and outside development the body carries no stack trace. *)
Theorem X22_errorHandler_never_answers_200 (development : bool) (err : Err.t)
    (statusCode c : Z) (b : ErrorBody.t) :
  errorHandler development err statusCode = Returns (c, b) →
  c ≠ 200%Z ∧ (c = statusCode ∨ c ∈ [400; 401; 409; 500]%Z) ∧
  ErrorBody.error b ≠ EmptyString ∧
  (development = false → ErrorBody.stack b = None).
Proof.
  unfold errorHandler. intros H.
  repeat case_match; simplify_eq/=.
  all: split; [first [done | by apply Z.eqb_neq] |].
  all: split;
    [first [by left
           | right;
             repeat first [apply list_elem_of_here
                          | apply list_elem_of_further]] |].
  all: split; [| done].
  all: try done.
  all: destruct (Err.message err) as [m |]; simpl in *; [| done].
  all: by destruct (String.eqb_spec m EmptyString).
Qed.

(** X23. A request that no route handles is answered through [notFound]
    and the error handler: 404 with the path in the error, and the stack
    only in development; except when the path contains the text Clerk,
    which the handler takes for an authentication error and answers 401. *)
Theorem X23_unknown_route (development : bool) (originalUrl stack : string) :
  let '(statusCode, err) := notFound originalUrl stack in
  errorHandler development err statusCode
  = Returns
      (if includes "Clerk" originalUrl
       then (401%Z,
             ErrorBody.mk "Authentication failed"
               (Some (DetailsText
                        (if development then "Not Found - " +:+ originalUrl
                         else "Invalid or expired token"))) None)
       else (404%Z,
             ErrorBody.mk ("Not Found - " +:+ originalUrl) None
               (if development then Some stack else None))).
Proof.
  unfold notFound, errorHandler.
  cbn [Err.name Err.message Err.code Err.errors Err.keyPattern Err.stack
       default truthy].
  change (includes "Clerk" (id ("Not Found - " +:+ originalUrl)))
    with (includes "Clerk" originalUrl).
  by destruct (includes "Clerk" originalUrl), development.
Qed.

(** ** [formatOrdinal] *)

Lemma below_100 (P : Z → Prop) :
  (∀ k : nat, (k < 100)%nat → P (Z.of_nat k)) →
  ∀ v, (0 ≤ v < 100)%Z → P v.
Proof.
  intros HP v Hv. rewrite <- (Z2Nat.id v) by lia. apply HP. lia.
Qed.

Lemma ordinal_suffix_table (v : Z) :
  (0 ≤ v < 100)%Z →
  ordinal_suffix v
  = (if (11 <=? v)%Z && (v <=? 13)%Z then "th"
     else if (v `mod` 10 =? 1)%Z then "st"
     else if (v `mod` 10 =? 2)%Z then "nd"
     else if (v `mod` 10 =? 3)%Z then "rd"
     else "th") ∧
  ordinal_suffix (- v) = "th".
Proof.
  revert v. apply below_100. intros k Hk.
  do 100 (destruct k as [| k]; [by vm_compute |]). lia.
Qed.

(** X24. On a safe integer ([|n| <= 2^53 - 1]) [formatOrdinal] writes the
    English ordinal: the number in decimal followed by [th] for 11, 12 and
    13 in the last two digits, and otherwise by [st], [nd], [rd] for a last
    digit 1, 2, 3 and [th] for the others.  A negative number always gets
    [th]. *)
Theorem X24_formatOrdinal_is_the_english_ordinal (n : Z) :
  (Z.abs n ≤ MAX_SAFE_INTEGER)%Z →
  formatOrdinal n
  = Some
      (pretty n +:+
       (if (n <? 0)%Z || (11 <=? n `mod` 100)%Z && (n `mod` 100 <=? 13)%Z
        then "th"
        else if (n `mod` 10 =? 1)%Z then "st"
        else if (n `mod` 10 =? 2)%Z then "nd"
        else if (n `mod` 10 =? 3)%Z then "rd"
        else "th")).
Proof.
  intros Hsafe. unfold formatOrdinal.
  rewrite (proj2 (Z.leb_le _ _) Hsafe). do 2 f_equal.
  destruct (Z.ltb_spec n 0) as [Hneg | Hpos]; simpl.
  - replace (Z.rem n 100) with (- ((- n) `mod` 100))%Z.
    + apply ordinal_suffix_table. apply Z.mod_pos_bound. lia.
    + rewrite <- (Z.rem_mod_nonneg (- n) 100) by lia.
      rewrite Z.rem_opp_l by lia. lia.
  - rewrite Z.rem_mod_nonneg by lia.
    rewrite <- (Z.mod_mod_divide n 100 10) by (by exists 10%Z).
    apply ordinal_suffix_table. apply Z.mod_pos_bound. lia.
Qed.

(** X25. With the email sender of the service, a run by email is free:
    the job ends with [totalCost = 0] and every detail has cost 0, whatever
    the transport does. *)
Theorem X25_email_run_is_free (env : Env) (jobs : gmap string Job.t)
    (now : Z) (jobId : string) (total : Z) (userId : string)
    (tenantIds : list string) (targetMonth : string) :
  rely env jobId → (0 ≤ total)%Z →
  (∀ i to subject html, ∃ transport,
     e_sendEmail env i to subject html
     = Returns (email_SendResult (sendEmail transport to))) →
  ∃ j,
    w_jobs (dispatch env jobId userId tenantIds "email" targetMonth
              (fresh_world jobs now jobId total)) !! jobId = Some j ∧
    Job.totalCost j = 0%Z ∧
    Forall (λ d, Detail.cost d = 0%Z) (Job.details j).
Proof.
  intros Hrely Htotal Hemail.
  destruct (dispatch_spec env jobs now jobId total userId tenantIds "email"
              targetMonth Hrely Htotal) as (t & _ & _ & Hj).
  eexists. split; [exact Hj |]. unfold outcome.
  destruct (resolve env userId tenantIds "email") as [[user tenants] | m];
    [| by split].
  pose proof (loop_result_invariant env userId "email" targetMonth user
                (λ j c, Job.totalCost j = 0%Z ∧ c = 0%Z ∧
                        Forall (λ d, Detail.cost d = 0%Z) (Job.details j)))
    as Hinv.
  specialize (λ H, Hinv H tenants 0%nat 0%Z
                (set_total (createReminderJob jobs now jobId total).2
                   (length tenants))).
  destruct Hinv as (Hcost & Hc & Hall); [| by repeat split |].
  - clear -Hemail. intros i tenant c j (Hj & -> & Hall).
    unfold verdict, attempt, send_outcome. simpl.
    assert (Hfail : ∀ m,
      match e_ReminderLog_create env i true
              (failure_log userId "email" tenant m) with
      | Returns _ =>
          Job.totalCost (push j (failed_detail tenant m) None) = 0%Z ∧
          0%Z = 0%Z ∧
          Forall (λ d, Detail.cost d = 0%Z)
            (Job.details (push j (failed_detail tenant m) None))
      | Raises _ => True
      end).
    { intros m. destruct (e_ReminderLog_create env i true _); [| done].
      simpl. split; [done |]. split; [done |].
      apply Forall_app. split; [done |]. by constructor. }
    destruct (Tenant.propertyId tenant) as [p |].
    + destruct (Hemail i (Tenant.email tenant)
                  ("Rent Reminder - " +:+ Property.name p)
                  (e_renderEmailTemplate env
                     (EmailTemplateData.mk (Tenant.name tenant) targetMonth
                        (Tenant.rentAmount tenant) (Tenant.dueDate tenant)
                        (Tenant.unitNumber tenant) (User.name user)
                        (User.phone user)))) as [transport ->].
      assert (Hzero : EmailResult.cost (sendEmail transport (Tenant.email tenant))
                      = 0%Z).
      { unfold sendEmail. by repeat case_match. }
      set (r := sendEmail transport (Tenant.email tenant)) in *.
      assert (Hok :
        Job.totalCost
          (push j (detail_of tenant (email_SendResult r))
             (Some (0 + or_zero (SendResult.cost (email_SendResult r)))%Z))
        = 0%Z ∧
        (0 + or_zero (SendResult.cost (email_SendResult r)))%Z = 0%Z ∧
        Forall (λ d, Detail.cost d = 0%Z)
          (Job.details
             (push j (detail_of tenant (email_SendResult r))
                (Some (0 + or_zero (SendResult.cost (email_SendResult r)))%Z)))).
      { unfold detail_of, email_SendResult. simpl. rewrite Hzero. simpl.
        split; [done |]. split; [done |].
        apply Forall_app. split; [done |]. by constructor. }
      destruct (e_ReminderLog_create env i false _) as [[] | m].
      * destruct (SendResult.success (email_SendResult r)); [| exact Hok].
        destruct (e_tenant_save env i tenant) as [[] | m]; [exact Hok |].
        specialize (Hfail m).
        by destruct (e_ReminderLog_create env i true _).
      * specialize (Hfail m).
        by destruct (e_ReminderLog_create env i true _).
    + specialize (Hfail "Cannot read properties of null (reading 'name')").
      by destruct (e_ReminderLog_create env i true _).
  - destruct (loop_result _ _ _ _ _ _ _ _ _) as [[j c] [m |]]; simpl in *;
      [done |]. by rewrite Hc.
Qed.

(** ** Instances *)

Lemma X1_witness :
  cleanupOldJobs 3601000 (<["job-0" := old_job]> ∅) !! "job-0" = Some old_job ∧
  cleanupOldJobs 3601001 (<["job-0" := old_job]> ∅) !! "job-0" = None.
Proof.
  split.
  - destruct (X1_sweep_removes_exactly_the_expired 3601000
                (<["job-0" := old_job]> ∅) "job-0" old_job
                (lookup_insert_eq _ _ _)) as (_ & Hrecent & _).
    apply (Hrecent 1000%Z); [reflexivity | lia].
  - destruct (X1_sweep_removes_exactly_the_expired 3601001
                (<["job-0" := old_job]> ∅) "job-0" old_job
                (lookup_insert_eq _ _ _)) as (_ & _ & Hold).
    apply (Hold 1000%Z); [reflexivity | lia].
Defined.

Lemma X2_witness :
  let jobs : gmap string Job.t := <["job-0" := old_job]> ∅ in
  cleanupOldJobs 3601001 (cleanupOldJobs 2000 jobs)
  = cleanupOldJobs 3601001 jobs.
Proof.
  intros jobs. apply (X2_sweeps_compose 2000 3601001 jobs). lia.
Defined.

Lemma X5_witness :
  let jobs : gmap string Job.t := <["job-0" := old_job]> ∅ in
  let req := send_request None None in
  ReminderController.getJobStatus (cleanupOldJobs 3601001 jobs) req
  = {| code := 404; body := BodyError "Job not found" |}.
Proof.
  intros jobs req.
  destruct (X5_swept_job_is_not_found 3601001 jobs old_job 1000
              (Update.mk None None None None None None None None) req
              (lookup_insert_eq _ _ _)) as [Hold _].
  apply Hold; [reflexivity | lia].
Defined.

Lemma X6_witness :
  let env := scripted [alice; bob; carol] sms_second_raises healthy_log in
  ∃ j,
    w_jobs (dispatch env "job-1" "landlord-1" ["t-1"; "t-2"; "t-3"] "sms"
              "2025-11" (fresh_world ∅ 900 "job-1" 3)) !! "job-1" = Some j ∧
    terminal (Job.status j) = true ∧
    Job.totalCost j = sum_costs (Job.details j).
Proof.
  intros env.
  apply (X6_totalCost_is_the_sum_of_the_details env ∅ 900 "job-1" 3
           "landlord-1" ["t-1"; "t-2"; "t-3"] "sms" "2025-11");
    [apply scripted_rely | lia].
Defined.

Lemma X7_witness :
  let env := with_gateway gateway_first_only
               (scripted [alice; bob] (λ _, sms_sent) healthy_log) in
  ∃ j,
    w_jobs (dispatch env "job-1" "landlord-1" ["t-1"; "t-2"] "sms" "2025-11"
              (fresh_world ∅ 900 "job-1" 2)) !! "job-1" = Some j ∧
    Job.totalCost j = (SMS_COST * Job.sent j)%Z.
Proof.
  intros env.
  apply (X7_sms_run_costs_50_per_sent env ∅ 900 "job-1" 2 "landlord-1"
           ["t-1"; "t-2"] "2025-11").
  - apply cleanup_rely. intros k jobs. by eexists.
  - lia.
  - intros i to message. by eexists.
Defined.

Lemma X8_witness :
  let env := scripted [alice; bob] (λ _, sms_sent) healthy_log in
  ∃ j,
    w_jobs (dispatch env "job-1" "landlord-1" ["t-1"; "t-2"] "sms" "2025-11"
              (fresh_world ∅ 900 "job-1" 2)) !! "job-1" = Some j ∧
    Job.status j = Completed ∧ Job.error j = None ∧
    Job.total j = 2%Z ∧ Job.sent j = Job.total j ∧ Job.failed j = 0%Z ∧
    Forall (λ d, Detail.status d = StatusSent) (Job.details j).
Proof.
  intros env.
  apply (X8_all_delivered env ∅ 900 "job-1" 2 "landlord-1" ["t-1"; "t-2"]
           "sms" "2025-11" landlord [alice; bob]).
  - apply scripted_rely.
  - lia.
  - reflexivity.
  - intros i t _. by eexists.
  - reflexivity.
  - reflexivity.
Defined.

Lemma X9_witness :
  let env := scripted [alice; bob] (λ _, Raises "gateway timeout")
               healthy_log in
  ∃ j,
    w_jobs (dispatch env "job-1" "landlord-1" ["t-1"; "t-2"] "sms" "2025-11"
              (fresh_world ∅ 900 "job-1" 2)) !! "job-1" = Some j ∧
    Job.status j = Completed ∧ Job.error j = None ∧
    Job.total j = 2%Z ∧ Job.failed j = Job.total j ∧ Job.sent j = 0%Z ∧
    Forall (λ d, Detail.status d = StatusFailed) (Job.details j).
Proof.
  intros env.
  apply (X9_nothing_delivered_still_completes env ∅ 900 "job-1" 2
           "landlord-1" ["t-1"; "t-2"] "sms" "2025-11" landlord [alice; bob]).
  - apply scripted_rely.
  - lia.
  - reflexivity.
  - intros i t _. exact I.
  - reflexivity.
Defined.

Lemma X10_witness :
  let env := scripted [alice] (λ _, sms_sent) healthy_log in
  let w := dispatch env "job-1" "landlord-1" ["t-2"] "sms" "2025-11"
             (fresh_world ∅ 900 "job-1" 1) in
  w_events w
  = [EvUserFindById "landlord-1"; EvTenantFind ["t-2"] "landlord-1"] ∧
  ∃ t,
    w_jobs w !! "job-1"
    = Some (Job.mk "job-1" Failed 1 0 0 [] 0 900 (Some t)
              (Some "No valid tenants found")).
Proof.
  intros env.
  apply (X10_unresolved_run_only_looks_up env ∅ 900 "job-1" 1 "landlord-1"
           ["t-2"] "sms" "2025-11" "No valid tenants found");
    [apply scripted_rely | lia | reflexivity].
Defined.

Lemma X13_witness :
  let env := scripted [] (λ _, sms_sent) healthy_log in
  let messages := [("+256700000001", "Hello Alice");
                   ("+256700000002", "Hello Bob")] in
  ∃ w' results,
    sendBulkSMS env messages (initial_world ∅) = (w', Returns results) ∧
    length results = 2%nat ∧
    w_events w'
    = [EvSendSMS "+256700000001" "Hello Alice"; EvDelay 100;
       EvSendSMS "+256700000002" "Hello Bob"; EvDelay 100] ∧
    ∀ k m, messages !! k = Some m →
           ∃ r, results !! k = Some r ∧
                e_sendSMS env k m.1 m.2 = Returns r.
Proof.
  intros env messages.
  apply (X13_sendBulkSMS_one_result_per_message env messages
           (initial_world ∅)).
  intros i to message. by eexists.
Defined.

Lemma X15_witness :
  let env := scripted [alice] (λ _, sms_sent) healthy_log in
  ∃ e,
    ReminderController.sendReminders env
      (send_request (Some ["t-1"]) (Some "whatsapp")) (initial_world ∅)
    = (initial_world ∅,
       Returns ({| code := 400; body := BodyError e |}, None)).
Proof.
  intros env.
  apply (X15_malformed_request_is_rejected_before_any_call env
           (send_request (Some ["t-1"]) (Some "whatsapp")) (initial_world ∅)).
  right. simpl. intros H.
  apply elem_of_cons in H as [H | H]; [discriminate H |].
  apply list_elem_of_singleton in H. discriminate H.
Defined.

Lemma X16_witness :
  let env := with_FeatureFlag_findOne
               (λ _, Returns (Some (FeatureFlag.mk false (Some "Back soon"))))
               (scripted [alice] (λ _, sms_sent) healthy_log) in
  ∃ w' message,
    ReminderController.sendReminders env
      (send_request (Some ["t-1"]) (Some "sms")) (initial_world ∅)
    = (w', Returns
             ({| code := 403;
                 body := BodyUnavailable "Feature unavailable" message "sms"
                           false (Some "Try using email reminders instead") |},
              None)) ∧
    w_events w'
    = [EvFeatureFlagFindOne "sms_reminders";
       EvFeatureFlagFindOne "sms_reminders"] ∧
    (∀ m, Some "Back soon" = Some m → m ≠ EmptyString → message = m).
Proof.
  intros env.
  apply (X16_disabled_method_is_refused_before_the_lookups env
           (send_request (Some ["t-1"]) (Some "sms")) (initial_world ∅)
           "t-1" [] "sms" (FeatureFlag.mk false (Some "Back soon")));
    try reflexivity.
  apply list_elem_of_here.
Defined.

Lemma X17_witness :
  let env := scripted [alice; bob] (λ _, sms_sent) healthy_log in
  (1 ≤ 2 ≤ Z.of_nat (length ["t-1"; "t-2"; "t-9"]))%Z.
Proof.
  intros env.
  apply (X17_announced_total_is_bounded env
           (send_request (Some ["t-1"; "t-2"; "t-9"]) (Some "sms"))
           (initial_world ∅)
           (ReminderController.sendReminders env
              (send_request (Some ["t-1"; "t-2"; "t-9"]) (Some "sms"))
              (initial_world ∅)).1
           [alice; bob]
           {| code := 202;
              body := BodyAccepted "Reminders are being sent in the background"
                        "job-1" 2 "sms" |}
           {| ReminderController.bg_jobId := "job-1";
              ReminderController.bg_userId := "landlord-1";
              ReminderController.bg_tenantIds := ["t-1"; "t-2"; "t-9"];
              ReminderController.bg_method := "sms";
              ReminderController.bg_targetMonth := "2025-11" |}
           "Reminders are being sent in the background" "job-1" 2 "sms");
    try reflexivity.
  apply (bool_decide_unpack _). by vm_compute.
Defined.

Lemma X19_witness :
  let env := with_FeatureFlag_findOne (λ _, Raises "db down")
               (scripted [alice] (λ _, sms_sent) healthy_log) in
  (requireFeature env "sms_reminders" (Raises "db down") (Raises "db down")
     (initial_world ∅)).2
  = Returns GateNext ∧
  (ReminderController.sendReminders env
     (send_request (Some ["t-1"]) (Some "sms")) (initial_world ∅)).2
  = Returns ({| code := 500; body := BodyError "Failed to send reminders" |},
             None).
Proof.
  intros env.
  apply (X19_flag_store_down env
           (send_request (Some ["t-1"]) (Some "sms")) (initial_world ∅)
           "t-1" [] "sms" "db down" (Raises "db down"));
    try reflexivity.
  apply list_elem_of_here.
Defined.

Lemma X22_witness :
  404%Z ≠ 200%Z ∧ (404%Z = 404%Z ∨ 404%Z ∈ [400; 401; 409; 500]%Z) ∧
  "No such tenant" ≠ EmptyString ∧
  (false = false → @None string = None).
Proof.
  apply (X22_errorHandler_never_answers_200 false
           (Err.mk "Error" (Some "No such tenant") (Some "at handler")
              None None None)
           404 404 (ErrorBody.mk "No such tenant" None None)).
  reflexivity.
Defined.

Lemma X25_witness :
  let env := with_transport transport_first_only
               (scripted [dora; emil] (λ _, sms_sent) healthy_log) in
  ∃ j,
    w_jobs (dispatch env "job-1" "landlord-1" ["t-4"; "t-5"] "email"
              "2025-11" (fresh_world ∅ 900 "job-1" 2)) !! "job-1" = Some j ∧
    Job.totalCost j = 0%Z ∧
    Forall (λ d, Detail.cost d = 0%Z) (Job.details j).
Proof.
  intros env.
  apply (X25_email_run_is_free env ∅ 900 "job-1" 2 "landlord-1"
           ["t-4"; "t-5"] "2025-11").
  - apply cleanup_rely. intros k jobs. by eexists.
  - lia.
  - intros i to subject html. by eexists.
Defined.

Lemma X24_witness :
  formatOrdinal 112 = Some "112th" ∧ formatOrdinal 23 = Some "23rd".
Proof.
  split.
  - apply (X24_formatOrdinal_is_the_english_ordinal 112).
    unfold MAX_SAFE_INTEGER. lia.
  - apply (X24_formatOrdinal_is_the_english_ordinal 23).
    unfold MAX_SAFE_INTEGER. lia.
Defined.
